(** * Result-set maintenance of the layer-websdk queries

    A shallow embedding of [queries/channels-query.js] and
    [queries/identities-query.js]: the insert-index computation, the
    add / remove / change event handlers, the per-item append used when a
    page of results is merged, and the in-flight request check of
    [_fetchData].

    Conventions of the embedding:
    - JavaScript numbers used as array indexes and counters are [Z]
      (the code uses [-1] as the "not found" index);
    - timestamps ([createdAt], [sentAt]) are [Z], the value a [Date]
      compares by under [>=];
    - IDs, request URLs and property names are [string];
    - arrays live in a heap [gmap loc (list Item)]: [this.data] is a
      reference, an in-place [splice] rewrites the cell, an array literal,
      [concat] or [slice] allocates a fresh cell;
    - an entity is represented by the values of its fields at the time a
      handler runs (no handler writes to an entity);
    - a handler is a computation in a small state-and-output monad over the
      controller's fields and the array heap; the output are the calls
      made to collaborators ([_triggerChange], [client.xhr],
      [dbManager.load...]), in order. The callbacks handed to [client.xhr]
      and to the database manager run later and are not part of the
      call; those of the database manager are [loadChannelsCallback] and
      [loadIdentitiesCallback]. *)

From Stdlib Require Import ZArith String List Bool Lia Permutation.
From stdpp Require Import base list gmap strings pretty sorting.
Import ListNotations.

Local Open Scope string_scope.
Local Open Scope list_scope.
Local Open Scope Z_scope.

(** ** Entities *)

(** Modelled from the spec: [SYNC_STATE] of [const.js], which is not among
    the sources; the sync states are those the specification lists. *)
Inductive SYNC_STATE : Type :=
  | NEW
  | SAVING
  | SYNCING
  | SYNCED
  | LOADING.

Definition SYNC_STATE_eqb (a b : SYNC_STATE) : bool :=
  match a, b with
  | NEW, NEW | SAVING, SAVING | SYNCING, SYNCING
  | SYNCED, SYNCED | LOADING, LOADING => true
  | _, _ => false
  end.

Record Message : Type := mkMessage { sentAt : Z }.

(** The fields of a Channel (or Conversation) the queries read.
    [isSaved] is the value returned by the entity's [isSaved()] method. *)
Record Channel : Type := mkChannel {
  id : string;
  syncState : SYNC_STATE;
  createdAt : Z;
  lastMessage : option Message;
  isSaved : bool
}.

(** What a result array holds: the live entity ([Query.InstanceDataType])
    or the plain object made by [toObject()] ([Query.ObjectDataType]). Both
    expose the same fields. *)
Inductive Item : Type :=
  | Instance (c : Channel)
  | Snapshot (c : Channel).

Definition fields (item : Item) : Channel :=
  match item with
  | Instance c => c
  | Snapshot c => c
  end.

Definition toObject (c : Channel) : Item := Snapshot c.

Inductive DataType : Type :=
  | InstanceDataType
  | ObjectDataType.

Definition isObjectDataType (t : DataType) : bool :=
  match t with
  | ObjectDataType => true
  | InstanceDataType => false
  end.

(** ** JavaScript array operations *)

Module JsArray.
Section Ops.
Context {A : Type}.

(** A relative index as [splice] and [slice] read it: negative counts
    from the end, and the result is clamped to [0 .. len]. *)
Definition relIndex (len k : Z) : Z :=
  if k <? 0 then Z.max (len + k) 0 else Z.min k len.

(** The array after [l.splice(start, deleteCount, ...items)]. *)
Definition splice (start deleteCount : Z) (items l : list A) : list A :=
  let len := Z.of_nat (length l) in
  let s := relIndex len start in
  let dc := Z.min (Z.max deleteCount 0) (len - s) in
  take (Z.to_nat s) l ++ items ++ drop (Z.to_nat (s + dc)) l.

(** [l.slice(b, e)] and [l.slice(b)]. *)
Definition slice (b e : Z) (l : list A) : list A :=
  let len := Z.of_nat (length l) in
  let b' := relIndex len b in
  let e' := relIndex len e in
  take (Z.to_nat (e' - b')) (drop (Z.to_nat b') l).

Definition sliceFrom (b : Z) (l : list A) : list A :=
  drop (Z.to_nat (relIndex (Z.of_nat (length l)) b)) l.

Definition unshift (x : A) (l : list A) : list A := x :: l.

Definition push (x : A) (l : list A) : list A := l ++ [x].

Definition concat (l1 l2 : list A) : list A := l1 ++ l2.
End Ops.
End JsArray.

(** ** The insert-index computation *)

Definition isNewOrSaving (item : Item) : bool :=
  SYNC_STATE_eqb (syncState (fields item)) NEW
  || SYNC_STATE_eqb (syncState (fields item)) SAVING.

(** [x.lastMessage ? x.lastMessage.sentAt : x.createdAt] *)
Definition sortKey (c : Channel) : Z :=
  match lastMessage c with
  | Some m => sentAt m
  | None => createdAt c
  end.

(** The [for] loop of the ['created_at'] branch. [data] is the part of the
    array from position [index] on; the result is the value of [index]
    when the loop ends. *)
Fixpoint scanCreatedAt (channel : Channel) (data : list Item) (index : Z) : Z :=
  match data with
  | [] => index
  | item :: rest =>
      if isNewOrSaving item then scanCreatedAt channel rest (index + 1)
      else if createdAt channel >=? createdAt (fields item) then index
      else scanCreatedAt channel rest (index + 1)
  end.

(** The [for] loop of the other branch; the result is the pair
    [(index, oldIndex)] when the loop ends. *)
Fixpoint scanRecency (channel : Channel) (data : list Item)
    (index oldIndex : Z) : Z * Z :=
  match data with
  | [] => (index, oldIndex)
  | item :: rest =>
      if String.eqb (id (fields item)) (id channel)
      then scanRecency channel rest (index + 1) index
      else if isNewOrSaving item
      then scanRecency channel rest (index + 1) oldIndex
      else if sortKey channel >=? sortKey (fields item) then (index, oldIndex)
      else scanRecency channel rest (index + 1) oldIndex
  end.

(** [oldIndex === -1 || oldIndex > index ? index : index - 1] *)
Definition finalIndex (index oldIndex : Z) : Z :=
  if (oldIndex =? -1) || (oldIndex >? index) then index else index - 1.

(** [_getInsertIndex(channel, data)]; [sortField] is the value of
    [this._getSortField()]. *)
Definition _getInsertIndex (sortField : string) (channel : Channel)
    (data : list Item) : Z :=
  if negb (isSaved channel) then 0
  else if String.eqb sortField "created_at" then scanCreatedAt channel data 0
  else
    let '(index, oldIndex) := scanRecency channel data 0 (-1) in
    finalIndex index oldIndex.

(** ** Controller state, array heap and the handler monad *)

(** The fields of a query the modelled methods read or write. [data] is a
    reference to an array of the heap. *)
Record Query : Type := mkQuery {
  dataType : DataType;
  data : nat;
  totalSize : Z;
  isFiring : bool;
  _firingRequest : string;
  _nextDBFromId : string;
  _nextServerFromId : string
}.

Record State : Type := mkState {
  this : Query;
  arrays : gmap nat (list Item)
}.

(** One entry of [evt.changes]; the values are kept as strings (the only
    value the handlers read is the old value of an ['id'] change). *)
Record Change : Type := mkChange {
  property : string;
  oldValue : string;
  newValue : string
}.

Record ChangeEvent : Type := mkChangeEvent {
  target : Channel;
  changes : list Change
}.

(** The event object handed to [_handleEvents]: what a change handler
    reads of it ([evt.target], [evt.changes]) and the list [evt.channels]
    the add and remove handlers read. *)
Record LayerEvent : Type := mkLayerEvent {
  changeOf : ChangeEvent;
  listOf : list Channel
}.

(** The argument of [_triggerChange]; [query: this] is left out. *)
Inductive Delta : Type :=
  | InsertDelta (index : Z) (item : Item)
  | RemoveDelta (index : Z) (item : Item)
  | PropertyDelta (item : Item) (isChange : bool) (chs : list Change)
  | MoveDelta (item : Item) (isChange : bool) (fromIndex toIndex : Z).

(** Calls made to collaborators. *)
Inductive Call : Type :=
  | TriggerChange (d : Delta)
  | Xhr (telemetryName url method : string) (sync : bool)
  | LoadChannels (fromId : string) (pageSize : Z)
  | LoadIdentities
  | TriggerData (page : list Item).

Definition M (A : Type) : Type := State -> A * State * list Call.

Definition ret {A : Type} (a : A) : M A := fun s => (a, s, []).

Definition bind {A B : Type} (m : M A) (f : A -> M B) : M B :=
  fun s =>
    let '(a, s1, out1) := m s in
    let '(b, s2, out2) := f a s1 in
    (b, s2, out1 ++ out2).

Declare Scope js_scope.
Delimit Scope js_scope with js.
Notation "x <- m ;; k" := (bind m (fun x => k))
  (at level 100, m at next level, k at level 200, right associativity)
  : js_scope.
Notation "m ;; k" := (bind m (fun _ => k))
  (at level 100, k at level 200, right associativity) : js_scope.
Local Open Scope js_scope.

Definition getThis : M Query := fun s => (this s, s, []).

Definition setThis (f : Query -> Query) : M unit :=
  fun s => (tt, mkState (f (this s)) (arrays s), []).

Definition call (c : Call) : M unit := fun s => (tt, s, [c]).

(** Reading, writing and allocating arrays. A fresh array gets a
    reference no array of the heap has. *)
Definition readArray (l : nat) : M (list Item) :=
  fun s => (arrays s !!! l, s, []).

Definition writeArray (l : nat) (v : list Item) : M unit :=
  fun s => (tt, mkState (this s) (<[l := v]> (arrays s)), []).

Definition newArray (v : list Item) : M nat :=
  fun s =>
    let l := fresh (dom (arrays s)) in
    (l, mkState (this s) (<[l := v]> (arrays s)), []).

Fixpoint forEach {A : Type} (l : list A) (f : A -> M unit) : M unit :=
  match l with
  | [] => ret tt
  | x :: rest => f x ;; forEach rest f
  end.

Fixpoint filterM {A : Type} (l : list A) (p : A -> M bool) : M (list A) :=
  match l with
  | [] => ret []
  | x :: rest =>
      keep <- p x ;;
      rest' <- filterM rest p ;;
      ret (if keep then x :: rest' else rest')
  end.

Fixpoint forEachAcc {A B : Type} (l : list A) (f : B -> A -> M B) (acc : B)
    : M B :=
  match l with
  | [] => ret acc
  | x :: rest => acc' <- f acc x ;; forEachAcc rest f acc'
  end.

(** Field assignments. *)
Definition set_data (l : nat) (q : Query) : Query :=
  mkQuery (dataType q) l (totalSize q) (isFiring q) (_firingRequest q)
          (_nextDBFromId q) (_nextServerFromId q).

Definition set_totalSize (n : Z) (q : Query) : Query :=
  mkQuery (dataType q) (data q) n (isFiring q) (_firingRequest q)
          (_nextDBFromId q) (_nextServerFromId q).

Definition set_isFiring (b : bool) (q : Query) : Query :=
  mkQuery (dataType q) (data q) (totalSize q) b (_firingRequest q)
          (_nextDBFromId q) (_nextServerFromId q).

Definition set_firingRequest (r : string) (q : Query) : Query :=
  mkQuery (dataType q) (data q) (totalSize q) (isFiring q) r
          (_nextDBFromId q) (_nextServerFromId q).

Definition set_nextDBFromId (i : string) (q : Query) : Query :=
  mkQuery (dataType q) (data q) (totalSize q) (isFiring q) (_firingRequest q)
          i (_nextServerFromId q).

Definition set_nextServerFromId (i : string) (q : Query) : Query :=
  mkQuery (dataType q) (data q) (totalSize q) (isFiring q) (_firingRequest q)
          (_nextDBFromId q) i.

(** [this.data] read as an array, [this.data.splice(...)] in place, and
    [this.data = <new array>]. *)
Definition readData : M (list Item) :=
  q <- getThis ;; readArray (data q).

Definition spliceInPlace (l : nat) (start deleteCount : Z) (items : list Item)
    : M unit :=
  arr <- readArray l ;;
  writeArray l (JsArray.splice start deleteCount items arr).

Definition spliceData (start deleteCount : Z) (items : list Item) : M unit :=
  q <- getThis ;; spliceInPlace (data q) start deleteCount items.

Definition assignNewData (v : list Item) : M unit :=
  l <- newArray v ;; setThis (set_data l).

(** The array [this.data] refers to in a state. *)
Definition items (s : State) : list Item := arrays s !!! data (this s).

(** ** Methods of the base class and of the event object *)

Module QueryBase.

(** Modelled from the spec: the search of [Query._getIndex] (see below),
    as a loop over the array from position [index] on; [-1] when no item
    has the ID. *)
Fixpoint indexFrom (i : string) (arr : list Item) (index : Z) : Z :=
  match arr with
  | [] => -1
  | item :: rest =>
      if String.eqb (id (fields item)) i then index
      else indexFrom i rest (index + 1)
  end.

(** Modelled from the spec: [Query._getIndex] of [queries/query.js], which
    is not among the sources. It locates an entity in [this.data] by ID
    and answers [-1] for an ID that is not present. *)
Definition _getIndex (i : string) : M Z :=
  arr <- readData ;; ret (indexFrom i arr 0).

(** Modelled from the spec: [Query._getData] of [queries/query.js] (the
    data projector): the entity itself for the instance data type, the
    detached object of [toObject()] for the object data type. *)
Definition _getData (t : DataType) (c : Channel) : Item :=
  if isObjectDataType t then toObject c else Instance c.

(** Modelled from the spec: [Query._updateNextFromId] of
    [queries/query.js]: the ID of the item preceding position [index],
    or the empty string when there is none. *)
Definition _updateNextFromId (index : Z) : M string :=
  arr <- readData ;;
  ret (if 0 <? index
       then match arr !! Z.to_nat (index - 1) with
            | Some item => id (fields item)
            | None => ""
            end
       else "").

(** Modelled from the spec: [Query._triggerChange] of [queries/query.js]
    notifies the consumers of one delta. *)
Definition _triggerChange (d : Delta) : M unit := call (TriggerChange d).

(** Modelled from the spec: [getChangesFor] and [hasProperty] of the
    change event ([layer-event.js] is not among the sources): the
    changes of the named property, and whether there is one. *)
Definition getChangesFor (name : string) (evt : ChangeEvent) : list Change :=
  List.filter (fun ch => String.eqb (property ch) name) (changes evt).

Definition hasProperty (name : string) (evt : ChangeEvent) : bool :=
  existsb (fun ch => String.eqb (property ch) name) (changes evt).

(** The cursor of a merged page: the ID of its last item becomes the
    local cursor for a page from the database, the server cursor for a
    page from the server. An empty page leaves the cursors. *)
Definition advanceCursor (results : list Channel) (fromDb : bool) : M unit :=
  match last results with
  | Some item =>
      if fromDb then setThis (set_nextDBFromId (id item))
      else setThis (set_nextServerFromId (id item))
  | None => ret tt
  end.

(** Under the object data type a merge works on a copy of the array. *)
Definition copyForObject : M unit :=
  q <- getThis ;;
  if isObjectDataType (dataType q) then
    arr <- readData ;; assignNewData (JsArray.concat [] arr)
  else ret tt.

(** Modelled from the spec: [Query._appendResults(results, fromDb)] of
    [queries/query.js], which is not among the sources. It merges a page
    of results, from the local cache or from the server, into the array:
    items whose ID is already in the array are left out (merging an ID
    that is present is a no-op), the cursor of the phase advances, each
    new item is handed to the model's [_appendResultsSplice], and the
    consumers get one notification for the page. [appendResultsSplice]
    is the method of the class the query belongs to. *)
Definition _appendResults (appendResultsSplice : Channel -> M unit)
    (results : list Channel) (fromDb : bool) : M unit :=
  newResults <-
    filterM results (fun item =>
      index <- _getIndex (id item) ;; ret (index =? -1)) ;;
  advanceCursor results fromDb ;;
  copyForObject ;;
  forEach newResults appendResultsSplice ;;
  q <- getThis ;;
  call (TriggerData (map (_getData (dataType q)) newResults)).

End QueryBase.

(** JavaScript truthiness of a string. *)
Definition truthy (s : string) : bool := negb (String.eqb s "").

(** ** [ChannelsQuery] *)

Module ChannelsQuery.
Import QueryBase.

(** [_fetchData(pageSize)]. The local-cache load is handed to the
    database manager, whose callback runs later; the network request is
    issued unless it is the one already firing. *)
Definition _fetchData (pageSize : Z) : M unit :=
  q <- getThis ;;
  call (LoadChannels (_nextDBFromId q) pageSize) ;;
  let newRequest :=
    ("channels?page_size=" +:+ pretty pageSize)
    +:+ (if truthy (_nextServerFromId q)
         then "&from_id=" +:+ _nextServerFromId q else "") in
  if negb (String.eqb newRequest (_firingRequest q)) then
    setThis (set_isFiring true) ;;
    setThis (set_firingRequest newRequest) ;;
    q' <- getThis ;;
    call (Xhr "channel_query_time" (_firingRequest q') "GET" false)
  else ret tt.

Definition _getSortField : string := "created_at".

(** [_appendResultsSplice(item)]: [this.data.unshift(this._getData(item))]. *)
Definition _appendResultsSplice (item : Channel) : M unit :=
  q <- getThis ;;
  arr <- readArray (data q) ;;
  writeArray (data q) (JsArray.unshift (_getData (dataType q) item) arr).

(** [_handleChangeEvent(name, evt)]. [sortField] is the value of
    [this._getSortField()]. The local [newIndex] is [None] while it is
    [undefined]. *)
Definition _handleChangeEvent (sortField : string) (evt : ChangeEvent)
    : M unit :=
  q <- getThis ;;
  index0 <- _getIndex (id (target evt)) ;;
  index <-
    (if isObjectDataType (dataType q) then
       match getChangesFor "id" evt with
       | idChange :: _ => _getIndex (oldValue idChange)
       | [] => ret index0
       end
     else ret index0) ;;
  if negb (index =? -1) then
    let reorder :=
      hasProperty "lastMessage" evt && String.eqb sortField "last_message" in
    newIndex <-
      (if isObjectDataType (dataType q) then
         if negb reorder then
           arr <- readData ;;
           assignNewData
             (JsArray.slice 0 index arr ++ [toObject (target evt)]
              ++ JsArray.sliceFrom (index + 1) arr) ;;
           ret None
         else
           arr <- readData ;;
           let newIndex := _getInsertIndex sortField (target evt) arr in
           spliceData index 1 [] ;;
           spliceData newIndex 0 [_getData (dataType q) (target evt)] ;;
           arr' <- readData ;;
           assignNewData (JsArray.concat arr' []) ;;
           ret (Some newIndex)
       else if reorder then
         arr <- readData ;;
         let newIndex := _getInsertIndex sortField (target evt) arr in
         (if negb (newIndex =? index) then
            spliceData index 1 [] ;;
            spliceData newIndex 0 [Instance (target evt)]
          else ret tt) ;;
         ret (Some newIndex)
       else ret None) ;;
    _triggerChange
      (PropertyDelta (_getData (dataType q) (target evt)) true
         (changes evt)) ;;
    match newIndex with
    | Some toIndex =>
        if reorder && negb (toIndex =? index) then
          _triggerChange
            (MoveDelta (_getData (dataType q) (target evt)) false
               index toIndex)
        else ret tt
    | None => ret tt
    end
  else ret tt.

(** One turn of the [forEach] of [_handleAddEvent]; [arrRef] is the local
    constant [data], the array [this.data] referred to when the handler
    started. *)
Definition addOne (sortField : string) (arrRef : nat) (channel : Channel)
    : M unit :=
  q <- getThis ;;
  arr <- readArray arrRef ;;
  let newIndex := _getInsertIndex sortField channel arr in
  spliceInPlace arrRef newIndex 0 [_getData (dataType q) channel] ;;
  (if isObjectDataType (dataType q) then
     arr' <- readArray arrRef ;;
     assignNewData (JsArray.concat [] arr')
   else ret tt) ;;
  q1 <- getThis ;;
  setThis (set_totalSize (totalSize q1 + 1)) ;;
  let item := _getData (dataType q) channel in
  _triggerChange (InsertDelta newIndex item).

(** [_handleAddEvent(name, evt)]; [channels] is [evt[name]]. *)
Definition _handleAddEvent (sortField : string) (channels : list Channel)
    : M unit :=
  list <-
    filterM channels (fun channel =>
      index <- _getIndex (id channel) ;; ret (index =? -1)) ;;
  if negb (Nat.eqb (length list) 0) then
    q <- getThis ;;
    forEach list (addOne sortField (data q))
  else ret tt.

(** One turn of the first [forEach] of [_handleRemoveEvent]; [removed] is
    the list of [{data, index}] pairs collected so far. *)
Definition removeOne (removed : list (Channel * Z)) (channel : Channel)
    : M (list (Channel * Z)) :=
  index <- _getIndex (id channel) ;;
  if negb (index =? -1) then
    q <- getThis ;;
    (if String.eqb (id channel) (_nextDBFromId q) then
       next <- _updateNextFromId index ;; setThis (set_nextDBFromId next)
     else ret tt) ;;
    q1 <- getThis ;;
    (if String.eqb (id channel) (_nextServerFromId q1) then
       next <- _updateNextFromId index ;; setThis (set_nextServerFromId next)
     else ret tt) ;;
    (if isObjectDataType (dataType q) then
       arr <- readData ;;
       assignNewData
         (JsArray.slice 0 index arr ++ JsArray.sliceFrom (index + 1) arr)
     else spliceData index 1 []) ;;
    ret (JsArray.push (channel, index) removed)
  else ret removed.

(** [_handleRemoveEvent(name, evt)]; [channels] is [evt[name]]. *)
Definition _handleRemoveEvent (channels : list Channel) : M unit :=
  removed <- forEachAcc channels removeOne [] ;;
  q <- getThis ;;
  setThis (set_totalSize (totalSize q - Z.of_nat (length removed))) ;;
  forEach removed (fun removedObj =>
    _triggerChange
      (RemoveDelta (snd removedObj)
         (_getData (dataType q) (fst removedObj)))).

(** The callback [_fetchData] hands to [dbManager.loadChannels]; it runs
    when the local cache answers with [channels]. *)
Definition loadChannelsCallback (channels : list Channel) : M unit :=
  if negb (Nat.eqb (length channels) 0)
  then _appendResults _appendResultsSplice channels true
  else ret tt.

(** [_handleEvents(eventName, evt)]: the [switch] on the event name. *)
Definition _handleEvents (sortField : string) (eventName : string)
    (evt : LayerEvent) : M unit :=
  if String.eqb eventName "channels:change" then
    _handleChangeEvent sortField (changeOf evt)
  else if String.eqb eventName "channels:add" then
    _handleAddEvent sortField (listOf evt)
  else if String.eqb eventName "channels:remove" then
    _handleRemoveEvent (listOf evt)
  else ret tt.

End ChannelsQuery.

(** ** [IdentitiesQuery] *)

Module IdentitiesQuery.
Import QueryBase.

(** [_fetchData(pageSize)]. *)
Definition _fetchData (pageSize : Z) : M unit :=
  q <- getThis ;;
  (if negb (truthy (_nextDBFromId q)) then call LoadIdentities
   else ret tt) ;;
  let newRequest :=
    ("identities?page_size=" +:+ pretty pageSize)
    +:+ (if truthy (_nextServerFromId q)
         then "&from_id=" +:+ _nextServerFromId q else "") in
  if negb (String.eqb newRequest (_firingRequest q)) then
    setThis (set_isFiring true) ;;
    setThis (set_firingRequest newRequest) ;;
    call (Xhr "identity_query_time" newRequest "GET" false)
  else ret tt.

(** [_appendResultsSplice(item)]: [this.data.push(this._getData(item))]. *)
Definition _appendResultsSplice (item : Channel) : M unit :=
  q <- getThis ;;
  arr <- readArray (data q) ;;
  writeArray (data q) (JsArray.push (_getData (dataType q) item) arr).

(** The callback [_fetchData] hands to [dbManager.loadIdentities]. *)
Definition loadIdentitiesCallback (identities : list Channel) : M unit :=
  if negb (Nat.eqb (length identities) 0)
  then _appendResults _appendResultsSplice identities true
  else ret tt.

End IdentitiesQuery.

(** The state, and the calls made, when a handler has run. *)
Definition stateAfter {A : Type} (m : M A) (s : State) : State := snd (fst (m s)).
Definition callsOf {A : Type} (m : M A) (s : State) : list Call := snd (m s).

(** * Specification predicates *)

(** ** The insert-index computation *)

(** The item at which the creation-time scan stops: a saved or syncing
    item that is not newer than the candidate. *)
Definition stopsCreatedAt (channel : Channel) (item : Item) : Prop :=
  isNewOrSaving item = false /\ createdAt (fields item) <= createdAt channel.

(** The item at which the recency scan stops: another entity, not NEW or
    SAVING, whose derived key is at most the candidate's. *)
Definition stopsRecency (channel : Channel) (item : Item) : Prop :=
  id (fields item) <> id channel /\ isNewOrSaving item = false /\
  sortKey (fields item) <= sortKey channel.

(** [index] is the position of the first item of [arr] that satisfies
    [stops], or the length of [arr] when no item does. *)
Definition firstStop (stops : Item -> Prop) (arr : list Item) (index : Z)
    : Prop :=
  0 <= index <= Z.of_nat (length arr) /\
  (forall (i : nat) item,
      arr !! i = Some item -> Z.of_nat i < index -> ~ stops item) /\
  (forall item, arr !! Z.to_nat index = Some item -> stops item).

(** [oldIndex] is the position of the last item before [index] that has
    the candidate's ID, or [-1] when there is none. *)
Definition lastOwnSlot (channel : Channel) (arr : list Item)
    (index oldIndex : Z) : Prop :=
  (oldIndex = -1 /\
   forall (i : nat) item,
     arr !! i = Some item -> Z.of_nat i < index ->
     id (fields item) <> id channel)
  \/
  (0 <= oldIndex < index /\
   (exists item,
       arr !! Z.to_nat oldIndex = Some item /\
       id (fields item) = id channel) /\
   forall (i : nat) item,
     arr !! i = Some item -> oldIndex < Z.of_nat i < index ->
     id (fields item) <> id channel).

(** The final index as the specification words it: [oldIndex] when no
    slot was found or [oldIndex > index], else [index - 1]. *)
Definition finalIndexAsWorded (index oldIndex : Z) : Z :=
  if (oldIndex =? -1) || (oldIndex >? index) then oldIndex else index - 1.

(** What the recency loop leaves in [oldIndex], for a loop started at
    counter [k] with [oldIndex = old] that ends with counter [index]. *)
Definition ownSlotFrom (channel : Channel) (arr : list Item)
    (k old index oldIndex : Z) : Prop :=
  (oldIndex = old /\
   forall (i : nat) item,
     arr !! i = Some item -> Z.of_nat i < index - k ->
     id (fields item) <> id channel)
  \/
  (k <= oldIndex < index /\
   (exists item,
       arr !! Z.to_nat (oldIndex - k) = Some item /\
       id (fields item) = id channel) /\
   forall (i : nat) item,
     arr !! i = Some item -> oldIndex - k < Z.of_nat i < index - k ->
     id (fields item) <> id channel).


(** ** The event handlers *)

Definition itemIds (arr : list Item) : list string :=
  map (fun item => id (fields item)) arr.

(** [arr] with [x] placed at position [i], and [arr] without its element
    at position [i]. *)
Definition insertAt (i : Z) (x : Item) (arr : list Item) : list Item :=
  take (Z.to_nat i) arr ++ x :: drop (Z.to_nat i) arr.

Definition removeAt (i : Z) (arr : list Item) : list Item :=
  take (Z.to_nat i) arr ++ drop (S (Z.to_nat i)) arr.

(** The entities of an add event that are not yet in the array. *)
Definition notYetPresent (arr : list Item) (channels : list Channel)
    : list Channel :=
  List.filter
    (fun channel => negb (existsb (String.eqb (id channel)) (itemIds arr)))
    channels.

(** Inserting the entities one after the other, each at the insert index
    computed on the array as it is by then; and the insert deltas this
    gives, one per entity. *)
Fixpoint insertAll (sortField : string) (t : DataType)
    (channels : list Channel) (arr : list Item) : list Item :=
  match channels with
  | [] => arr
  | channel :: rest =>
      insertAll sortField t rest
        (insertAt (_getInsertIndex sortField channel arr)
           (QueryBase._getData t channel) arr)
  end.

Fixpoint insertDeltas (sortField : string) (t : DataType)
    (channels : list Channel) (arr : list Item) : list Delta :=
  match channels with
  | [] => []
  | channel :: rest =>
      InsertDelta (_getInsertIndex sortField channel arr)
        (QueryBase._getData t channel)
      :: insertDeltas sortField t rest
           (insertAt (_getInsertIndex sortField channel arr)
              (QueryBase._getData t channel) arr)
  end.

(** Removing the entities of a remove event one after the other: the
    array left, and the [(entity, index)] pairs of those found. *)
Fixpoint removeAll (channels : list Channel) (arr : list Item)
    : list Item * list (Channel * Z) :=
  match channels with
  | [] => (arr, [])
  | channel :: rest =>
      let index := QueryBase.indexFrom (id channel) arr 0 in
      if index =? -1 then removeAll rest arr
      else
        let '(arr', removed) := removeAll rest (removeAt index arr) in
        (arr', (channel, index) :: removed)
  end.

(** Each insert delta of the run names the position at which its target
    sits right after its insertion. *)
Inductive placedInOrder (sf : string) (t : DataType)
    : list Channel -> list Item -> list Delta -> list Item -> Prop :=
  | placed_nil (arr : list Item) : placedInOrder sf t [] arr [] arr
  | placed_cons (c : Channel) (rest : list Channel) (arr arr' : list Item)
      (deltas : list Delta) (i : Z) :
      i = _getInsertIndex sf c arr ->
      0 <= i <= Z.of_nat (length arr) ->
      insertAt i (QueryBase._getData t c) arr !! Z.to_nat i = Some (QueryBase._getData t c) ->
      placedInOrder sf t rest (insertAt i (QueryBase._getData t c) arr) deltas arr' ->
      placedInOrder sf t (c :: rest) arr
        (InsertDelta i (QueryBase._getData t c) :: deltas) arr'.

(** The ID by which [_handleChangeEvent] looks the entity up: the
    target's ID, or, under the object data type, the old ID of the first
    ['id'] change the event carries. *)
Definition referencedId (t : DataType) (evt : ChangeEvent) : string :=
  if isObjectDataType t then
    match QueryBase.getChangesFor "id" evt with
    | idChange :: _ => oldValue idChange
    | [] => id (target evt)
    end
  else id (target evt).

Definition isXhr (c : Call) : bool :=
  match c with
  | Xhr _ _ _ _ => true
  | _ => false
  end.

Definition isPropertyDelta (c : Call) : bool :=
  match c with
  | TriggerChange (PropertyDelta _ _ _) => true
  | _ => false
  end.

Definition isMoveDelta (c : Call) : bool :=
  match c with
  | TriggerChange (MoveDelta _ _ _ _) => true
  | _ => false
  end.

(** The request of [_fetchData]: the resource, the page size and, when
    there is one, the server cursor. *)
Definition requestSignature (resource : string) (pageSize : Z)
    (cursor : string) : string :=
  (resource +:+ "?page_size=" +:+ pretty pageSize)
  +:+ (if truthy cursor then "&from_id=" +:+ cursor else "").


(** ** Sample entities used in the worked examples *)

Definition savedChannel (i : string) (t : Z) : Channel :=
  mkChannel i SYNCED t None true.

Definition newChannel (i : string) (t : Z) : Channel :=
  mkChannel i NEW t None false.

Definition channelWithMessage (i : string) (t sent : Z) : Channel :=
  mkChannel i SYNCED t (Some (mkMessage sent)) true.

(** A query over one array, stored at reference 0. *)
Definition sampleState (t : DataType) (arr : list Item) : State :=
  mkState (mkQuery t 0%nat (Z.of_nat (length arr)) false "" "" "")
          {[ 0%nat := arr ]}.

Definition firingState (request cursor : string) : State :=
  mkState (mkQuery InstanceDataType 0%nat 0 true request "" cursor)
          {[ 0%nat := [] ]}.

(** ** Order of the array, and the deltas as a consumer applies them *)

(** The key the insert index compares under a sort field. *)
Definition orderKey (sortField : string) (c : Channel) : Z :=
  if String.eqb sortField "created_at" then createdAt c else sortKey c.

(** [a] may stand before [b]: one of them is NEW or SAVING, or the key of
    [a] is at least the key of [b]. *)
Definition inOrder (sortField : string) (a b : Item) : Prop :=
  isNewOrSaving a = true \/ isNewOrSaving b = true \/
  orderKey sortField (fields a) >= orderKey sortField (fields b).

(** The items that are not NEW or SAVING stand with falling keys. *)
Definition sortedFor (sortField : string) (arr : list Item) : Prop :=
  StronglySorted (inOrder sortField) arr.

(** The deltas among the calls, and what an insert or a remove delta does
    to a consumer's copy of the array. *)
Definition triggered (calls : list Call) : list Delta :=
  flat_map (fun c => match c with TriggerChange d => [d] | _ => [] end) calls.

Definition applyDelta (arr : list Item) (d : Delta) : list Item :=
  match d with
  | InsertDelta index item => insertAt index item arr
  | RemoveDelta index _ => removeAt index arr
  | PropertyDelta _ _ _ => arr
  | MoveDelta _ _ _ _ => arr
  end.

Definition replay (deltas : list Delta) (arr : list Item) : list Item :=
  fold_left applyDelta deltas arr.

(** A sequence of events handled one after the other. *)
Definition handleAll (sortField : string)
    (events : list (string * LayerEvent)) : M unit :=
  forEach events (fun e => ChannelsQuery._handleEvents sortField (fst e) (snd e)).

(** The items of an array whose ID is not among those of [channels]. *)
Definition withoutIds (channels : list Channel) (arr : list Item)
    : list Item :=
  List.filter
    (fun item =>
       negb (existsb (String.eqb (id (fields item))) (map id channels)))
    arr.

(** [_appendResultsSplice] called for each item of a page in turn. *)
Definition appendPage (splice : Channel -> M unit) (page : list Channel)
    : M unit :=
  forEach page splice.
(** * Properties *)

Import QueryBase.

(** ** Arrays *)

Lemma splice_insert (i : Z) (x : Item) (arr : list Item) :
  0 <= i <= Z.of_nat (length arr) ->
  JsArray.splice i 0 [x] arr = insertAt i x arr.
Proof.
  intros Hi. unfold JsArray.splice, JsArray.relIndex, insertAt.
  destruct (Z.ltb_spec i 0) as [Hneg | _]; [lia |].
  rewrite Z.min_l by lia.
  replace (Z.min (Z.max 0 0) (Z.of_nat (length arr) - i)) with 0 by lia.
  rewrite Z.add_0_r. reflexivity.
Qed.

Lemma splice_remove (i : Z) (arr : list Item) :
  0 <= i < Z.of_nat (length arr) ->
  JsArray.splice i 1 [] arr = removeAt i arr.
Proof.
  intros Hi. unfold JsArray.splice, JsArray.relIndex, removeAt.
  destruct (Z.ltb_spec i 0) as [Hneg | _]; [lia |].
  rewrite Z.min_l by lia.
  replace (Z.min (Z.max 1 0) (Z.of_nat (length arr) - i)) with 1 by lia.
  replace (Z.to_nat (i + 1)) with (S (Z.to_nat i)) by lia.
  reflexivity.
Qed.

Lemma slice_remove (i : Z) (arr : list Item) :
  0 <= i < Z.of_nat (length arr) ->
  JsArray.slice 0 i arr ++ JsArray.sliceFrom (i + 1) arr = removeAt i arr.
Proof.
  intros Hi. unfold JsArray.slice, JsArray.sliceFrom, JsArray.relIndex, removeAt.
  destruct (Z.ltb_spec i 0) as [Hneg | _]; [lia |].
  destruct (Z.ltb_spec (i + 1) 0) as [Hneg | _]; [lia |].
  simpl (0 <? 0).
  rewrite !Z.min_l by lia.
  replace (Z.to_nat 0) with 0%nat by lia.
  replace (Z.to_nat (i + 1)) with (S (Z.to_nat i)) by lia.
  rewrite Z.sub_0_r. reflexivity.
Qed.

Lemma slice_replace (i : Z) (x : Item) (arr : list Item) :
  0 <= i < Z.of_nat (length arr) ->
  JsArray.slice 0 i arr ++ [x] ++ JsArray.sliceFrom (i + 1) arr
  = <[Z.to_nat i := x]> arr.
Proof.
  intros Hi. unfold JsArray.slice, JsArray.sliceFrom, JsArray.relIndex.
  destruct (Z.ltb_spec i 0) as [Hneg | _]; [lia |].
  destruct (Z.ltb_spec (i + 1) 0) as [Hneg | _]; [lia |].
  simpl (0 <? 0).
  rewrite !Z.min_l by lia.
  replace (Z.to_nat 0) with 0%nat by lia.
  replace (Z.to_nat (i + 1)) with (S (Z.to_nat i)) by lia.
  rewrite Z.sub_0_r. simpl drop at 1.
  destruct (lookup_lt_is_Some_2 arr (Z.to_nat i)) as [y Hy]; [lia |].
  rewrite (insert_take_drop arr (Z.to_nat i) x) by lia.
  reflexivity.
Qed.

Lemma length_insertAt (i : Z) (x : Item) (arr : list Item) :
  length (insertAt i x arr) = S (length arr).
Proof.
  unfold insertAt. rewrite length_app. simpl.
  rewrite length_take, length_drop. lia.
Qed.

Lemma length_removeAt (i : Z) (arr : list Item) :
  0 <= i < Z.of_nat (length arr) ->
  S (length (removeAt i arr)) = length arr.
Proof.
  intros Hi. unfold removeAt.
  rewrite length_app, length_take, length_drop. lia.
Qed.

(** The element placed by [insertAt] sits at the index given. *)
Lemma lookup_insertAt (i : Z) (x : Item) (arr : list Item) :
  0 <= i <= Z.of_nat (length arr) ->
  insertAt i x arr !! Z.to_nat i = Some x.
Proof.
  intros Hi. unfold insertAt.
  rewrite lookup_app_r by (rewrite length_take; lia).
  rewrite length_take.
  replace (Z.to_nat i - Z.to_nat i `min` length arr)%nat with 0%nat by lia.
  reflexivity.
Qed.

Lemma itemIds_insertAt (i : Z) (x : Item) (arr : list Item) :
  Permutation (itemIds (insertAt i x arr)) (id (fields x) :: itemIds arr).
Proof.
  unfold insertAt, itemIds.
  rewrite map_app. simpl.
  rewrite <- Permutation_middle. constructor.
  rewrite <- map_app, take_drop. reflexivity.
Qed.

(** ** The insert-index computation *)

Lemma firstStop_unique stops arr i j :
  firstStop stops arr i -> firstStop stops arr j -> i = j.
Proof.
  intros (Hi & Hbi & Hai) (Hj & Hbj & Haj).
  destruct (Z.lt_trichotomy i j) as [Hlt | [Heq | Hgt]]; [| assumption |].
  - exfalso.
    destruct (lookup_lt_is_Some_2 arr (Z.to_nat i)) as [item Hitem]; [lia |].
    apply (Hbj (Z.to_nat i) item Hitem); [lia | auto].
  - exfalso.
    destruct (lookup_lt_is_Some_2 arr (Z.to_nat j)) as [item Hitem]; [lia |].
    apply (Hbi (Z.to_nat j) item Hitem); [lia | auto].
Qed.

Lemma firstStop_empty stops : firstStop stops [] 0.
Proof.
  split; [simpl; lia |]. split; intros; discriminate.
Qed.

Lemma firstStop_here stops item rest :
  stops item -> firstStop stops (item :: rest) 0.
Proof.
  intros Hs. split; [simpl length; lia |]. split.
  - intros i it _ Hlt. lia.
  - intros it Hit. simpl in Hit. injection Hit as <-. exact Hs.
Qed.

Lemma firstStop_skip stops item rest r :
  ~ stops item -> firstStop stops rest r -> firstStop stops (item :: rest) (r + 1).
Proof.
  intros Hno ((Hlo & Hhi) & Hb & Ha).
  split; [simpl length; lia |]. split.
  - intros [| i] it Hit Hlt.
    + simpl in Hit. injection Hit as <-. exact Hno.
    + simpl in Hit. apply (Hb i it Hit). lia.
  - intros it Hit.
    replace (Z.to_nat (r + 1)) with (S (Z.to_nat r)) in Hit by lia.
    simpl in Hit. auto.
Qed.

(** The creation-time loop started at counter [k] on the rest [arr] of the
    array stops [firstStop] positions further. *)
Lemma scanCreatedAt_firstStop channel arr k :
  firstStop (stopsCreatedAt channel) arr (scanCreatedAt channel arr k - k).
Proof.
  revert k. induction arr as [| item rest IH]; intros k; simpl.
  - replace (k - k) with 0 by lia. apply firstStop_empty.
  - assert (Hstep :
      ~ stopsCreatedAt channel item ->
      firstStop (stopsCreatedAt channel) (item :: rest)
        (scanCreatedAt channel rest (k + 1) - k)).
    { intros Hno.
      replace (scanCreatedAt channel rest (k + 1) - k)
        with (scanCreatedAt channel rest (k + 1) - (k + 1) + 1) by lia.
      apply firstStop_skip; [exact Hno | apply IH]. }
    destruct (isNewOrSaving item) eqn:Hns.
    + apply Hstep. intros [Hc _]. congruence.
    + destruct (createdAt channel >=? createdAt (fields item)) eqn:Hge.
      * replace (k - k) with 0 by lia.
        apply firstStop_here. split; [exact Hns | lia].
      * apply Hstep. intros [_ Hc]. lia.
Qed.

Lemma ownSlotFrom_skip channel item rest k old index oldIndex :
  id (fields item) <> id channel ->
  k + 1 <= index ->
  ownSlotFrom channel rest (k + 1) old index oldIndex ->
  ownSlotFrom channel (item :: rest) k old index oldIndex.
Proof.
  intros Hid Hle [(Heq & Hnone) | (Hrange & (it & Hit & Hitid) & Hlater)].
  - left. split; [exact Heq |].
    intros [| i] it Hit Hlt.
    + simpl in Hit. injection Hit as <-. exact Hid.
    + simpl in Hit. apply (Hnone i it Hit). lia.
  - right. split; [lia |]. split.
    + exists it. split; [| exact Hitid].
      replace (Z.to_nat (oldIndex - k))
        with (S (Z.to_nat (oldIndex - (k + 1)))) by lia.
      simpl. exact Hit.
    + intros [| i] it' Hit' Hlt; [lia |].
      simpl in Hit'. apply (Hlater i it' Hit'). lia.
Qed.

Lemma ownSlotFrom_own channel item rest k old index oldIndex :
  id (fields item) = id channel ->
  k + 1 <= index ->
  ownSlotFrom channel rest (k + 1) k index oldIndex ->
  ownSlotFrom channel (item :: rest) k old index oldIndex.
Proof.
  intros Hid Hle [(Heq & Hnone) | (Hrange & (it & Hit & Hitid) & Hlater)].
  - right. subst oldIndex. split; [lia |]. split.
    + exists item. replace (Z.to_nat (k - k)) with 0%nat by lia. simpl. auto.
    + intros [| i] it Hit Hlt; [lia |].
      simpl in Hit. apply (Hnone i it Hit). lia.
  - right. split; [lia |]. split.
    + exists it. split; [| exact Hitid].
      replace (Z.to_nat (oldIndex - k))
        with (S (Z.to_nat (oldIndex - (k + 1)))) by lia.
      simpl. exact Hit.
    + intros [| i] it' Hit' Hlt; [lia |].
      simpl in Hit'. apply (Hlater i it' Hit'). lia.
Qed.

Lemma scanRecency_spec channel arr k old :
  firstStop (stopsRecency channel) arr
    (fst (scanRecency channel arr k old) - k) /\
  ownSlotFrom channel arr k old
    (fst (scanRecency channel arr k old))
    (snd (scanRecency channel arr k old)).
Proof.
  revert k old. induction arr as [| item rest IH]; intros k old; simpl.
  - replace (k - k) with 0 by lia. split; [apply firstStop_empty |].
    left. split; [reflexivity | intros; discriminate].
  - assert (Hnext : forall old',
      ~ stopsRecency channel item ->
      firstStop (stopsRecency channel) (item :: rest)
        (fst (scanRecency channel rest (k + 1) old') - k) /\
      k + 1 <= fst (scanRecency channel rest (k + 1) old')).
    { intros old' Hno. destruct (IH (k + 1) old') as (Hfs & _).
      split; [| destruct Hfs as ((Hlo & _) & _); lia].
      replace (fst (scanRecency channel rest (k + 1) old') - k)
        with (fst (scanRecency channel rest (k + 1) old') - (k + 1) + 1)
        by lia.
      apply firstStop_skip; assumption. }
    destruct (String.eqb_spec (id (fields item)) (id channel)) as [Hid | Hid].
    + destruct (Hnext k) as (Hfs & Hle).
      { intros (Hc & _). contradiction. }
      split; [exact Hfs |].
      apply ownSlotFrom_own; [exact Hid | exact Hle | apply IH].
    + destruct (isNewOrSaving item) eqn:Hns.
      * destruct (Hnext old) as (Hfs & Hle).
        { intros (_ & Hc & _). congruence. }
        split; [exact Hfs |].
        apply ownSlotFrom_skip; [exact Hid | exact Hle | apply IH].
      * destruct (sortKey channel >=? sortKey (fields item)) eqn:Hge.
        -- simpl. replace (k - k) with 0 by lia. split.
           ++ apply firstStop_here. split; [exact Hid |].
              split; [exact Hns | lia].
           ++ left. split; [reflexivity |]. intros i it _ Hlt. lia.
        -- destruct (Hnext old) as (Hfs & Hle).
           { intros (_ & _ & Hc). lia. }
           split; [exact Hfs |].
           apply ownSlotFrom_skip; [exact Hid | exact Hle | apply IH].
Qed.

Lemma ownSlotFrom_lastOwnSlot channel arr index oldIndex :
  ownSlotFrom channel arr 0 (-1) index oldIndex ->
  lastOwnSlot channel arr index oldIndex.
Proof.
  unfold ownSlotFrom, lastOwnSlot.
  replace (index - 0) with index by lia.
  replace (oldIndex - 0) with oldIndex by lia.
  tauto.
Qed.

(** The insert index always lies within the array. *)
Lemma getInsertIndex_range sortField channel arr :
  0 <= _getInsertIndex sortField channel arr <= Z.of_nat (length arr).
Proof.
  unfold _getInsertIndex.
  destruct (isSaved channel); simpl; [| lia].
  destruct (String.eqb sortField "created_at").
  - destruct (scanCreatedAt_firstStop channel arr 0) as (H & _). lia.
  - destruct (scanRecency_spec channel arr 0 (-1)) as (((Hlo & Hhi) & _) & Hold).
    destruct (scanRecency channel arr 0 (-1)) as [index oldIndex].
    simpl in *. unfold finalIndex.
    destruct Hold as [(Heq & _) | (Hrange & _)].
    + subst oldIndex. simpl. lia.
    + destruct ((oldIndex =? -1) || (oldIndex >? index)); lia.
Qed.

(** Unfolds the sample entities so that their fields compute. *)
Tactic Notation "samples" :=
  unfold sortKey, savedChannel, newChannel, channelWithMessage; simpl.
Tactic Notation "samples" "in" hyp(H) :=
  unfold sortKey, savedChannel, newChannel, channelWithMessage in H;
  simpl in H.

(** C6. A candidate whose [isSaved()] is false gets insert index 0,
    whatever the sort field and whatever the array holds. *)
Theorem getInsertIndex_unsaved (sortField : string) (channel : Channel)
    (arr : list Item) :
  isSaved channel = false -> _getInsertIndex sortField channel arr = 0.
Proof.
  intros Hsaved. unfold _getInsertIndex. rewrite Hsaved. reflexivity.
Qed.

Lemma getInsertIndex_unsaved_witness :
  _getInsertIndex "last_message" (newChannel "n" 3)
    [Instance (savedChannel "a" 9); Instance (savedChannel "b" 1)] = 0.
Proof.
  apply (getInsertIndex_unsaved "last_message" (newChannel "n" 3)).
  reflexivity.
Defined.

(** C2. Under the ['created_at'] sort a saved candidate gets the position
    of the first item that is not NEW or SAVING and whose [createdAt] is at
    most the candidate's, or the array length when there is no such item.
    With a NEW (or SAVING) item at index 0, followed by nothing or by such
    an item, the index is 1. *)
Theorem getInsertIndex_created_at (channel : Channel) (arr : list Item) :
  isSaved channel = true ->
  firstStop (stopsCreatedAt channel) arr
    (_getInsertIndex "created_at" channel arr) /\
  (forall first rest,
      arr = first :: rest ->
      isNewOrSaving first = true ->
      (rest = [] \/
       exists item rest', rest = item :: rest' /\ stopsCreatedAt channel item) ->
      _getInsertIndex "created_at" channel arr = 1).
Proof.
  intros Hsaved.
  assert (Hfs : firstStop (stopsCreatedAt channel) arr
                  (_getInsertIndex "created_at" channel arr)).
  { unfold _getInsertIndex. rewrite Hsaved. simpl.
    pose proof (scanCreatedAt_firstStop channel arr 0) as H.
    replace (scanCreatedAt channel arr 0 - 0)
      with (scanCreatedAt channel arr 0) in H by lia.
    exact H. }
  split; [exact Hfs |].
  intros first rest -> Hfirst Hrest.
  apply (firstStop_unique (stopsCreatedAt channel) (first :: rest));
    [exact Hfs |].
  replace 1 with (0 + 1) by lia.
  apply firstStop_skip.
  - intros [Hc _]. congruence.
  - destruct Hrest as [-> | (item & rest' & -> & Hstop)].
    + apply firstStop_empty.
    + apply firstStop_here. exact Hstop.
Qed.

Lemma getInsertIndex_created_at_witness :
  firstStop (stopsCreatedAt (savedChannel "c" 9))
    [Instance (newChannel "n" 1); Instance (savedChannel "x" 5)]
    (_getInsertIndex "created_at" (savedChannel "c" 9)
       [Instance (newChannel "n" 1); Instance (savedChannel "x" 5)]) /\
  _getInsertIndex "created_at" (savedChannel "c" 9)
    [Instance (newChannel "n" 1); Instance (savedChannel "x" 5)] = 1.
Proof.
  destruct (getInsertIndex_created_at (savedChannel "c" 9)
              [Instance (newChannel "n" 1); Instance (savedChannel "x" 5)]
              eq_refl) as [Hfs Hone].
  split; [exact Hfs |].
  apply (Hone (Instance (newChannel "n" 1)) [Instance (savedChannel "x" 5)]).
  - reflexivity.
  - reflexivity.
  - right. exists (Instance (savedChannel "x" 5)), [].
    split; [reflexivity |]. split; [reflexivity | samples; lia].
Defined.

(** C1, as the code has it. Under a sort field other than ['created_at']
    a saved candidate's scan stops at [index], the first other item that is
    not NEW or SAVING and whose derived key is at most the candidate's (the
    array length when there is none); [oldIndex] is the last position
    before [index] holding the candidate's ID, or [-1]; the result is
    [index] when [oldIndex] is [-1] or greater than [index], and
    [index - 1] otherwise. *)
Theorem getInsertIndex_recency (sortField : string) (channel : Channel)
    (arr : list Item) :
  sortField <> "created_at" ->
  isSaved channel = true ->
  exists index oldIndex,
    firstStop (stopsRecency channel) arr index /\
    lastOwnSlot channel arr index oldIndex /\
    ((oldIndex = -1 \/ oldIndex > index) ->
       _getInsertIndex sortField channel arr = index) /\
    (~ (oldIndex = -1 \/ oldIndex > index) ->
       _getInsertIndex sortField channel arr = index - 1).
Proof.
  intros Hsort Hsaved.
  destruct (scanRecency_spec channel arr 0 (-1)) as (Hfs & Hold).
  exists (fst (scanRecency channel arr 0 (-1))),
         (snd (scanRecency channel arr 0 (-1))).
  unfold _getInsertIndex. rewrite Hsaved. simpl.
  destruct (String.eqb_spec sortField "created_at") as [Heq | _];
    [contradiction |].
  destruct (scanRecency channel arr 0 (-1)) as [index oldIndex]. simpl in *.
  replace (index - 0) with index in Hfs by lia.
  split; [exact Hfs |].
  split; [apply ownSlotFrom_lastOwnSlot; exact Hold |].
  unfold finalIndex. split.
  - intros Hcase.
    destruct ((oldIndex =? -1) || (oldIndex >? index)) eqn:Hb;
      [reflexivity |].
    apply orb_false_iff in Hb. destruct Hb as [Hb1 Hb2]. lia.
  - intros Hcase.
    destruct ((oldIndex =? -1) || (oldIndex >? index)) eqn:Hb;
      [| reflexivity].
    apply orb_true_iff in Hb. exfalso. apply Hcase. destruct Hb; lia.
Qed.

Lemma getInsertIndex_recency_witness :
  exists index oldIndex,
    firstStop (stopsRecency (channelWithMessage "c" 1 3))
      [Instance (channelWithMessage "c" 1 3); Instance (savedChannel "x" 5);
       Instance (savedChannel "y" 2)] index /\
    lastOwnSlot (channelWithMessage "c" 1 3)
      [Instance (channelWithMessage "c" 1 3); Instance (savedChannel "x" 5);
       Instance (savedChannel "y" 2)] index oldIndex /\
    index = 2 /\ oldIndex = 0 /\
    _getInsertIndex "last_message" (channelWithMessage "c" 1 3)
      [Instance (channelWithMessage "c" 1 3); Instance (savedChannel "x" 5);
       Instance (savedChannel "y" 2)] = index - 1.
Proof.
  destruct (getInsertIndex_recency "last_message" (channelWithMessage "c" 1 3)
              [Instance (channelWithMessage "c" 1 3);
               Instance (savedChannel "x" 5); Instance (savedChannel "y" 2)])
    as (index & oldIndex & Hfs & Hold & _ & Hbefore).
  - discriminate.
  - reflexivity.
  - exists index, oldIndex.
    assert (Hi : index = 2).
    { apply (firstStop_unique _ _ _ _ Hfs).
      apply (firstStop_skip _ _ _ 1).
      - intros (Hc & _). apply Hc. reflexivity.
      - apply (firstStop_skip _ _ _ 0).
        + intros (_ & _ & Hc). samples in Hc. lia.
        + apply firstStop_here.
          split; [discriminate |]. split; [reflexivity | samples; lia]. }
    assert (Ho : oldIndex = 0).
    { subst index.
      destruct Hold as [(_ & Hnone) | (Hrange & (it & Hit & Hid) & _)].
      - exfalso.
        apply (Hnone 0%nat (Instance (channelWithMessage "c" 1 3)));
          [reflexivity | lia | reflexivity].
      - assert (Hcases : oldIndex = 0 \/ oldIndex = 1) by lia.
        destruct Hcases as [-> | ->]; [reflexivity |].
        simpl in Hit. injection Hit as <-. discriminate Hid. }
    split; [exact Hfs |]. split; [exact Hold |].
    split; [exact Hi |]. split; [exact Ho |].
    apply Hbefore. lia.
Defined.

(** C1, as worded: the worded final index ([oldIndex] in the first case)
    is not what the code returns. Here the scan stops at index 1 with no
    slot of the candidate found; the code answers 1, the wording -1. *)
Lemma getInsertIndex_recency_not_oldIndex :
  isSaved (savedChannel "c" 1) = true /\
  ~ exists index oldIndex,
      firstStop (stopsRecency (savedChannel "c" 1))
        [Instance (savedChannel "x" 5); Instance (savedChannel "y" 0)] index /\
      lastOwnSlot (savedChannel "c" 1)
        [Instance (savedChannel "x" 5); Instance (savedChannel "y" 0)]
        index oldIndex /\
      _getInsertIndex "last_message" (savedChannel "c" 1)
        [Instance (savedChannel "x" 5); Instance (savedChannel "y" 0)]
      = finalIndexAsWorded index oldIndex.
Proof.
  split; [reflexivity |].
  intros (index & oldIndex & Hfs & Hold & Heq).
  assert (Hi : index = 1).
  { apply (firstStop_unique _ _ _ _ Hfs).
    apply (firstStop_skip _ _ _ 0).
    - intros (_ & _ & Hc). samples in Hc. lia.
    - apply firstStop_here.
      split; [discriminate |]. split; [reflexivity | samples; lia]. }
  subst index.
  destruct Hold as [(-> & _) | (Hrange & (it & Hit & Hid) & _)].
  - vm_compute in Heq. discriminate Heq.
  - assert (oldIndex = 0) by lia. subst oldIndex.
    simpl in Hit. injection Hit as <-. discriminate Hid.
Qed.

(** ** Looking an entity up by ID *)

Lemma indexFrom_range (i : string) (arr : list Item) (k : Z) :
  indexFrom i arr k = -1 \/
  k <= indexFrom i arr k < k + Z.of_nat (length arr).
Proof.
  revert k. induction arr as [| item rest IH]; intros k; simpl.
  - left. reflexivity.
  - destruct (String.eqb (id (fields item)) i).
    + right. lia.
    + destruct (IH (k + 1)) as [H | H]; [left; exact H | right; lia].
Qed.

Lemma indexFrom_absent (i : string) (arr : list Item) (k : Z) :
  0 <= k -> (indexFrom i arr k = -1 <-> ~ In i (itemIds arr)).
Proof.
  revert k. induction arr as [| item rest IH]; intros k Hk; simpl.
  - tauto.
  - destruct (String.eqb_spec (id (fields item)) i) as [Heq | Hne].
    + split; [lia | intros H; exfalso; apply H; left; exact Heq].
    + rewrite (IH (k + 1)) by lia. tauto.
Qed.

Lemma notYetPresent_filter (arr : list Item) (channels : list Channel) :
  List.filter (fun channel => indexFrom (id channel) arr 0 =? -1) channels
  = notYetPresent arr channels.
Proof.
  unfold notYetPresent. apply List.filter_ext. intros channel.
  destruct (Z.eqb_spec (indexFrom (id channel) arr 0) (-1)) as [Habs | Hpres].
  - apply (indexFrom_absent _ _ 0) in Habs; [| lia].
    symmetry. apply negb_true_iff.
    destruct (existsb (String.eqb (id channel)) (itemIds arr)) eqn:Hex;
      [| reflexivity].
    apply existsb_exists in Hex. destruct Hex as (j & Hin & Heq).
    apply String.eqb_eq in Heq. subst j. contradiction.
  - symmetry. apply negb_false_iff.
    apply existsb_exists. exists (id channel).
    split; [| apply String.eqb_refl].
    destruct (in_dec string_dec (id channel) (itemIds arr)) as [Hin | Hout];
      [exact Hin |].
    apply (indexFrom_absent _ _ 0) in Hout; [contradiction | lia].
Qed.

Lemma notYetPresent_absent (arr : list Item) (channels : list Channel)
    (channel : Channel) :
  In channel (notYetPresent arr channels) -> ~ In (id channel) (itemIds arr).
Proof.
  unfold notYetPresent. intros Hin Hid.
  apply List.filter_In in Hin. destruct Hin as [_ Hf].
  apply negb_true_iff in Hf.
  assert (Ht : existsb (String.eqb (id channel)) (itemIds arr) = true).
  { apply existsb_exists. exists (id channel).
    split; [exact Hid | apply String.eqb_refl]. }
  congruence.
Qed.

(** ** Running the handlers *)

Ltac run :=
  unfold stateAfter, callsOf,
    ChannelsQuery._handleChangeEvent, ChannelsQuery.addOne,
    ChannelsQuery.removeOne, ChannelsQuery._appendResultsSplice,
    IdentitiesQuery._appendResultsSplice,
    ChannelsQuery._fetchData, IdentitiesQuery._fetchData,
    _getIndex, _updateNextFromId, _triggerChange,
    spliceData, spliceInPlace, assignNewData, readData,
    bind, ret, getThis, setThis, call, readArray, writeArray, newArray;
  cbn [fst snd this arrays].

Lemma getIndex_run (i : string) (s : State) :
  _getIndex i s = (indexFrom i (items s) 0, s, []).
Proof. reflexivity. Qed.

Lemma filterM_present (channels : list Channel) (s : State) :
  filterM channels
    (fun channel => bind (_getIndex (id channel))
                      (fun index => ret (index =? -1))) s
  = (notYetPresent (items s) channels, s, []).
Proof.
  rewrite <- notYetPresent_filter.
  induction channels as [| channel rest IH]; [reflexivity |].
  simpl. unfold bind at 1. unfold bind at 1.
  rewrite getIndex_run. unfold ret at 1. unfold bind at 1.
  rewrite IH. unfold ret. simpl.
  destruct (indexFrom (id channel) (items s) 0 =? -1); reflexivity.
Qed.

Lemma forEach_cons {A : Type} (f : A -> M unit) (x : A) (rest : list A)
    (s s1 : State) (out1 : list Call) :
  f x s = (tt, s1, out1) ->
  forEach (x :: rest) f s
  = (fst (fst (forEach rest f s1)), snd (fst (forEach rest f s1)),
     out1 ++ snd (forEach rest f s1)).
Proof.
  intros Hrun. simpl. unfold bind. rewrite Hrun.
  destruct (forEach rest f s1) as [[u s2] out2]. reflexivity.
Qed.

Lemma fresh_not_in_heap (h : gmap nat (list Item)) : fresh (dom h) ∉ dom h.
Proof. apply is_fresh. Qed.

Lemma dom_insert_keeps (h : gmap nat (list Item)) (l l' : nat)
    (v : list Item) :
  l' ∈ dom h -> l' ∈ dom (<[l := v]> h).
Proof. rewrite dom_insert_L. set_solver. Qed.

Lemma dom_insert_here (h : gmap nat (list Item)) (l : nat) (v : list Item) :
  l ∈ dom (<[l := v]> h).
Proof. rewrite dom_insert_L. set_solver. Qed.

(** ** The add handler *)

(** One turn of the loop of [_handleAddEvent]. *)
Lemma addOne_spec (sf : string) (arrRef : nat) (c : Channel) (s : State) :
  let t := dataType (this s) in
  let arr := arrays s !!! arrRef in
  let i := _getInsertIndex sf c arr in
  let x := _getData t c in
  exists s1,
    ChannelsQuery.addOne sf arrRef c s
      = (tt, s1, [TriggerChange (InsertDelta i x)]) /\
    arrays s1 !!! arrRef = insertAt i x arr /\
    totalSize (this s1) = totalSize (this s) + 1 /\
    dataType (this s1) = t /\
    dom (arrays s) ⊆ dom (arrays s1) /\
    arrRef ∈ dom (arrays s1) /\
    (t = InstanceDataType ->
       data (this s1) = data (this s) /\
       arrays s1 = <[arrRef := insertAt i x arr]> (arrays s)) /\
    (t = ObjectDataType ->
       items s1 = insertAt i x arr /\
       (data (this s1) ∉ dom (arrays s)) /\
       data (this s1) <> arrRef).
Proof.
  intros t arr i x.
  pose proof (getInsertIndex_range sf c arr) as Hrange.
  fold i in Hrange.
  unfold ChannelsQuery.addOne. run. fold t arr i.
  destruct t eqn:Ht; cbn [isObjectDataType _getData] in *.
  - eexists. split; [reflexivity |]. cbn [this arrays].
    rewrite splice_insert by exact Hrange.
    rewrite lookup_total_insert_eq.
    split; [reflexivity |]. split; [reflexivity |]. split; [exact Ht |].
    split; [intros l Hl; apply dom_insert_keeps; exact Hl |].
    split; [apply dom_insert_here |].
    split; [intros _; split; reflexivity | discriminate].
  - eexists. split; [reflexivity |]. cbn [this arrays].
    rewrite splice_insert by exact Hrange.
    rewrite !lookup_total_insert_eq.
    set (h1 := <[arrRef := insertAt i (toObject c) arr]> (arrays s)).
    assert (Hfresh : fresh (dom h1) ∉ dom h1) by apply fresh_not_in_heap.
    assert (Hin : arrRef ∈ dom h1) by apply dom_insert_here.
    assert (Hne : fresh (dom h1) <> arrRef).
    { intros Heq. rewrite Heq in Hfresh. contradiction. }
    split.
    { rewrite lookup_total_insert_ne by exact Hne.
      unfold h1. apply lookup_total_insert_eq. }
    split; [reflexivity |]. split; [exact Ht |].
    split; [intros l Hl; unfold h1; do 2 apply dom_insert_keeps; exact Hl |].
    split; [apply dom_insert_keeps; exact Hin |].
    split; [discriminate |]. intros _.
    split; [unfold items; cbn; apply lookup_total_insert_eq |].
    split; [| exact Hne]. cbn.
    intros Hold. apply Hfresh. unfold h1. apply dom_insert_keeps. exact Hold.
Qed.

(** The whole loop. *)
Lemma addLoop_spec (sf : string) (arrRef : nat) (list : list Channel) :
  forall s : State,
  let t := dataType (this s) in
  let arr := arrays s !!! arrRef in
  let r := forEach list (ChannelsQuery.addOne sf arrRef) s in
  let s' := snd (fst r) in
  arrays s' !!! arrRef = insertAll sf t list arr /\
  snd r = map TriggerChange (insertDeltas sf t list arr) /\
  totalSize (this s') = totalSize (this s) + Z.of_nat (length list) /\
  dataType (this s') = t /\
  dom (arrays s) ⊆ dom (arrays s') /\
  (t = InstanceDataType ->
     data (this s') = data (this s) /\
     (list <> [] ->
      arrays s' = <[arrRef := insertAll sf t list arr]> (arrays s))) /\
  (t = ObjectDataType -> list <> [] ->
     items s' = insertAll sf t list arr /\
     (data (this s') ∉ dom (arrays s)) /\
     data (this s') <> arrRef).
Proof.
  induction list as [| c rest IH]; intros s t arr r s'.
  - subst r s'. simpl.
    split; [reflexivity |]. split; [reflexivity |].
    split; [lia |]. split; [reflexivity |]. split; [intros l Hl; exact Hl |].
    split; [intros _; split; [reflexivity | congruence] | congruence].
  - destruct (addOne_spec sf arrRef c s)
      as (s1 & Hrun & Harr1 & Hsize1 & Htype1 & Hdom1 & Hin1 & Hinst1 & Hobj1).
    fold t arr in Hrun, Harr1, Htype1, Hinst1, Hobj1.
    specialize (IH s1). cbv zeta in IH.
    rewrite Htype1, Harr1 in IH.
    destruct IH as (Harr & Hcalls & Hsize & Htype & Hdom & Hinst & Hobj).
    subst r s'. rewrite (forEach_cons _ _ _ _ _ _ Hrun).
    destruct (forEach rest (ChannelsQuery.addOne sf arrRef) s1)
      as [[[] s2] out2] eqn:Hrest.
    cbn [fst snd] in *.
    split; [exact Harr |].
    split; [simpl; rewrite Hcalls; reflexivity |].
    split; [simpl length; lia |].
    split; [exact Htype |].
    split; [intros l Hl; apply Hdom, Hdom1; exact Hl |].
    split.
    + intros Hinstance. destruct (Hinst Hinstance) as [Hdata Hheap].
      destruct (Hinst1 Hinstance) as [Hdata1 Hheap1].
      split; [congruence |]. intros _.
      destruct rest as [| c' rest'].
      * simpl in Hrest. unfold ret in Hrest. injection Hrest as <- <-.
        simpl. exact Hheap1.
      * rewrite Hheap by discriminate. rewrite Hheap1.
        rewrite insert_insert_eq. reflexivity.
    + intros Hobject _.
      destruct (Hobj1 Hobject) as (Hitems1 & Hfresh1 & Hne1).
      destruct rest as [| c' rest'].
      * simpl in Hrest. unfold ret in Hrest. injection Hrest as <- <-.
        simpl. split; [exact Hitems1 |]. split; [exact Hfresh1 | exact Hne1].
      * destruct (Hobj Hobject) as (Hitems & Hfresh & Hne); [discriminate |].
        split; [exact Hitems |]. split; [| exact Hne].
        intros Hold. apply Hfresh. apply Hdom1. exact Hold.
Qed.

Lemma handleAddEvent_run (sf : string) (channels : list Channel) (s : State) :
  ChannelsQuery._handleAddEvent sf channels s
  = match notYetPresent (items s) channels with
    | [] => (tt, s, [])
    | list => forEach list (ChannelsQuery.addOne sf (data (this s))) s
    end.
Proof.
  unfold ChannelsQuery._handleAddEvent. unfold bind at 1.
  rewrite filterM_present.
  destruct (notYetPresent (items s) channels) as [| c rest]; [reflexivity |].
  cbn [length Nat.eqb negb]. unfold bind at 1, getThis at 1.
  destruct (forEach (c :: rest) (ChannelsQuery.addOne sf (data (this s))) s)
    as [[[] s2] out2].
  reflexivity.
Qed.

(** What [_handleAddEvent] does, in terms of the array and of the deltas. *)
Lemma handleAddEvent_spec (sf : string) (channels : list Channel) (s : State) :
  let t := dataType (this s) in
  let added := notYetPresent (items s) channels in
  let r := ChannelsQuery._handleAddEvent sf channels s in
  let s' := snd (fst r) in
  items s' = insertAll sf t added (items s) /\
  snd r = map TriggerChange (insertDeltas sf t added (items s)) /\
  totalSize (this s') = totalSize (this s) + Z.of_nat (length added) /\
  dataType (this s') = t /\
  (t = InstanceDataType ->
     data (this s') = data (this s) /\
     (added <> [] ->
      arrays s' = <[data (this s) := items s']> (arrays s))) /\
  (t = ObjectDataType -> added <> [] ->
     (data (this s') ∉ dom (arrays s)) /\ data (this s') <> data (this s)) /\
  (added = [] -> s' = s).
Proof.
  intros t added r s'. subst r s'.
  rewrite handleAddEvent_run. fold added.
  destruct added as [| c rest] eqn:Hadded.
  - simpl.
    split; [reflexivity |]. split; [reflexivity |]. split; [lia |].
    split; [reflexivity |].
    split; [intros _; split; [reflexivity | congruence] |].
    split; [congruence | reflexivity].
  - pose proof (addLoop_spec sf (data (this s)) (c :: rest) s) as Hloop.
    cbv zeta in Hloop. fold t in Hloop. fold (items s) in Hloop.
    destruct (forEach (c :: rest) (ChannelsQuery.addOne sf (data (this s))) s)
      as [[[] s2] out2] eqn:Hrun.
    cbn [fst snd] in *.
    destruct Hloop as (Harr & Hcalls & Hsize & Htype & Hdom & Hinst & Hobj).
    assert (Hitems : items s2 = insertAll sf t (c :: rest) (items s)).
    { destruct t eqn:Ht.
      - destruct (Hinst eq_refl) as [Hdata _].
        unfold items at 1. rewrite Hdata. exact Harr.
      - destruct (Hobj eq_refl) as (Hit & _); [discriminate | exact Hit]. }
    split; [exact Hitems |]. split; [exact Hcalls |].
    split; [exact Hsize |]. split; [exact Htype |].
    split.
    + intros Hinstance. destruct (Hinst Hinstance) as [Hdata Hheap].
      split; [exact Hdata |]. intros _.
      rewrite Hitems. apply Hheap. discriminate.
    + split; [| discriminate].
      intros Hobject _.
      destruct (Hobj Hobject) as (_ & Hfresh & Hne); [discriminate |].
      split; assumption.
Qed.

(** IDs of the array after the insertions: those of the entities inserted
    and those that were there. *)
Lemma itemIds_insertAll (sf : string) (t : DataType) (cs : list Channel) :
  forall arr : list Item,
  Permutation (itemIds (insertAll sf t cs arr))
    (map id cs ++ itemIds arr).
Proof.
  induction cs as [| c rest IH]; intros arr; simpl.
  - reflexivity.
  - rewrite IH. rewrite itemIds_insertAt.
    rewrite <- Permutation_middle.
    replace (id (fields (_getData t c))) with (id c)
      by (destruct t; reflexivity).
    reflexivity.
Qed.

Lemma length_insertAll (sf : string) (t : DataType) (cs : list Channel) :
  forall arr : list Item,
  length (insertAll sf t cs arr) = (length cs + length arr)%nat.
Proof.
  induction cs as [| c rest IH]; intros arr; simpl; [reflexivity |].
  rewrite IH, length_insertAt. lia.
Qed.

Lemma length_insertDeltas (sf : string) (t : DataType) (cs : list Channel) :
  forall arr : list Item,
  length (insertDeltas sf t cs arr) = length cs.
Proof.
  induction cs as [| c rest IH]; intros arr; simpl; [reflexivity |].
  rewrite IH. reflexivity.
Qed.

Lemma NoDup_map_filter {A B : Type} (f : A -> B) (p : A -> bool)
    (l : list A) :
  NoDup (map f l) -> NoDup (map f (List.filter p l)).
Proof.
  induction l as [| x rest IH]; simpl; [auto |].
  intros Hnd. apply NoDup_cons in Hnd. destruct Hnd as [Hx Hrest].
  destruct (p x); simpl; [| auto].
  apply NoDup_cons. split; [| auto].
  intros Hin. apply Hx.
  apply list_elem_of_In in Hin. apply list_elem_of_In.
  apply in_map_iff in Hin. destruct Hin as (y & Hy & Hin).
  apply in_map_iff. exists y. split; [exact Hy |].
  apply List.filter_In in Hin. tauto.
Qed.

Lemma insertAll_placedInOrder (sf : string) (t : DataType)
    (cs : list Channel) :
  forall arr : list Item,
  placedInOrder sf t cs arr (insertDeltas sf t cs arr)
    (insertAll sf t cs arr).
Proof.
  induction cs as [| c rest IH]; intros arr; simpl.
  - constructor.
  - pose proof (getInsertIndex_range sf c arr) as Hrange.
    apply placed_cons;
      [reflexivity | exact Hrange | apply lookup_insertAt; exact Hrange
      | apply IH].
Qed.

(** ** The remove handler *)

(** One turn of the first loop of [_handleRemoveEvent]. *)
Lemma removeOne_spec (acc : list (Channel * Z)) (c : Channel) (s : State) :
  let t := dataType (this s) in
  let index := indexFrom (id c) (items s) 0 in
  (index = -1 -> ChannelsQuery.removeOne acc c s = (acc, s, [])) /\
  (index <> -1 ->
   exists s1,
     ChannelsQuery.removeOne acc c s = (acc ++ [(c, index)], s1, []) /\
     items s1 = removeAt index (items s) /\
     totalSize (this s1) = totalSize (this s) /\
     dataType (this s1) = t /\
     dom (arrays s) ⊆ dom (arrays s1) /\
     (t = InstanceDataType ->
        data (this s1) = data (this s) /\
        arrays s1 = <[data (this s) := removeAt index (items s)]> (arrays s)) /\
     (t = ObjectDataType -> data (this s1) ∉ dom (arrays s))).
Proof.
  intros t index. split.
  - intros Habs. unfold ChannelsQuery.removeOne. unfold bind at 1.
    rewrite getIndex_run. fold index. rewrite Habs. reflexivity.
  - intros Hfound.
    assert (Hrange : 0 <= index < Z.of_nat (length (items s))).
    { destruct (indexFrom_range (id c) (items s) 0) as [H | H];
        [contradiction | fold index in H; lia]. }
    unfold ChannelsQuery.removeOne. unfold bind at 1.
    rewrite getIndex_run. fold index.
    destruct (Z.eqb_spec index (-1)) as [Heq | _]; [contradiction |].
    cbn [negb]. run. fold t.
    destruct (String.eqb (id c) (_nextDBFromId (this s)));
      cbn [fst snd this arrays app _nextServerFromId set_nextDBFromId];
      (destruct (String.eqb (id c) (_nextServerFromId (this s)));
       cbn [fst snd this arrays app];
       destruct t eqn:Ht; cbn [isObjectDataType fst snd this arrays app
                               dataType data totalSize
                               set_nextDBFromId set_nextServerFromId];
       (eexists; split; [reflexivity |];
        unfold items at 1;
        cbn [this arrays data dataType totalSize set_data
             set_nextDBFromId set_nextServerFromId];
        fold (items s);
        rewrite ?lookup_total_insert_eq;
        rewrite ?splice_remove by exact Hrange;
        rewrite ?slice_remove by exact Hrange;
        split; [reflexivity |]; split; [reflexivity |];
        split; [first [exact Ht | reflexivity] |];
        split; [intros l Hl; apply dom_insert_keeps; exact Hl |];
        split;
        [ first [ discriminate
                | intros _; split; [reflexivity |];
                  rewrite ?splice_remove by exact Hrange; reflexivity ]
        | first [ discriminate | intros _; apply fresh_not_in_heap ] ])).
Qed.

Lemma forEachAcc_cons {A B : Type} (f : B -> A -> M B) (x : A)
    (rest : list A) (acc acc1 : B) (s s1 : State) :
  f acc x s = (acc1, s1, []) ->
  forEachAcc (x :: rest) f acc s = forEachAcc rest f acc1 s1.
Proof.
  intros Hrun. simpl. unfold bind. rewrite Hrun.
  destruct (forEachAcc rest f acc1 s1) as [[b s2] out2]. reflexivity.
Qed.

Lemma removeAll_length (channels : list Channel) :
  forall arr : list Item,
  (length (fst (removeAll channels arr))
   + length (snd (removeAll channels arr)))%nat = length arr.
Proof.
  induction channels as [| c rest IH]; intros arr; simpl; [lia |].
  destruct (Z.eqb_spec (indexFrom (id c) arr 0) (-1)) as [Habs | Hfound].
  - apply IH.
  - specialize (IH (removeAt (indexFrom (id c) arr 0) arr)).
    destruct (removeAll rest (removeAt (indexFrom (id c) arr 0) arr))
      as [arr' removed].
    simpl in *.
    assert (Hrange : 0 <= indexFrom (id c) arr 0 < Z.of_nat (length arr)).
    { destruct (indexFrom_range (id c) arr 0) as [H | H];
        [contradiction | lia]. }
    pose proof (length_removeAt _ _ Hrange). lia.
Qed.

(** The first loop of [_handleRemoveEvent]. *)
Lemma removeLoop_spec (channels : list Channel) :
  forall (acc : list (Channel * Z)) (s : State),
  let t := dataType (this s) in
  let r := forEachAcc channels ChannelsQuery.removeOne acc s in
  let s' := snd (fst r) in
  fst (fst r) = acc ++ snd (removeAll channels (items s)) /\
  snd r = [] /\
  items s' = fst (removeAll channels (items s)) /\
  totalSize (this s') = totalSize (this s) /\
  dataType (this s') = t /\
  dom (arrays s) ⊆ dom (arrays s') /\
  (t = InstanceDataType ->
     data (this s') = data (this s) /\
     (snd (removeAll channels (items s)) <> [] ->
      arrays s' = <[data (this s) := items s']> (arrays s))) /\
  (t = ObjectDataType -> snd (removeAll channels (items s)) <> [] ->
     data (this s') ∉ dom (arrays s)) /\
  (snd (removeAll channels (items s)) = [] -> s' = s).
Proof.
  induction channels as [| c rest IH]; intros acc s t r s'.
  - subst r s'. simpl. rewrite app_nil_r.
    split; [reflexivity |]. split; [reflexivity |]. split; [reflexivity |].
    split; [reflexivity |]. split; [reflexivity |].
    split; [intros l Hl; exact Hl |].
    split; [intros _; split; [reflexivity | congruence] |].
    split; [congruence | reflexivity].
  - destruct (removeOne_spec acc c s) as [Habsent Hfound].
    fold t in Hfound. subst r s'. simpl removeAll.
    destruct (Z.eqb_spec (indexFrom (id c) (items s) 0) (-1)) as [Habs | Hpres].
    + rewrite (forEachAcc_cons _ _ _ _ _ _ _ (Habsent Habs)).
      apply IH.
    + destruct (Hfound Hpres)
        as (s1 & Hrun & Hitems1 & Hsize1 & Htype1 & Hdom1 & Hinst1 & Hobj1).
      rewrite (forEachAcc_cons _ _ _ _ _ _ _ Hrun).
      specialize (IH (acc ++ [(c, indexFrom (id c) (items s) 0)]) s1).
      cbv zeta in IH. rewrite Htype1, Hitems1, Hsize1 in IH.
      destruct IH as (Hacc & Hcalls & Hitems & Hsize & Htype & Hdom
                      & Hinst & Hobj & Hnone).
      destruct (removeAll rest (removeAt (indexFrom (id c) (items s) 0)
                                  (items s))) as [arr' removed] eqn:Hrest.
      cbn [fst snd] in *.
      split; [rewrite Hacc, <- app_assoc; reflexivity |].
      split; [exact Hcalls |]. split; [exact Hitems |].
      split; [exact Hsize |]. split; [exact Htype |].
      split; [intros l Hl; apply Hdom, Hdom1; exact Hl |].
      split.
      * intros Hinstance. destruct (Hinst Hinstance) as [Hdata Hheap].
        destruct (Hinst1 Hinstance) as [Hdata1 Hheap1].
        split; [congruence |]. intros _.
        destruct removed as [| p removed'].
        -- rewrite (Hnone eq_refl). rewrite Hitems1. exact Hheap1.
        -- rewrite Hheap by discriminate. rewrite Hdata1, Hheap1.
           rewrite insert_insert_eq. reflexivity.
      * split; [| discriminate].
        intros Hobject _. intros Hold.
        destruct removed as [| p removed'].
        -- rewrite (Hnone eq_refl) in Hold. exact (Hobj1 Hobject Hold).
        -- apply (Hobj Hobject); [discriminate |]. apply Hdom1. exact Hold.
Qed.

Lemma removeDeltas_run (t : DataType) (l : list (Channel * Z)) :
  forall s2 : State,
  forEach l (fun removedObj =>
    _triggerChange (RemoveDelta (snd removedObj) (_getData t (fst removedObj))))
    s2
  = (tt, s2,
     map (fun p => TriggerChange (RemoveDelta (snd p) (_getData t (fst p)))) l).
Proof.
  induction l as [| p l IHl]; intros s2; [reflexivity |].
  simpl. unfold bind. unfold _triggerChange at 1, call.
  rewrite IHl. reflexivity.
Qed.

Lemma handleRemoveEvent_run (channels : list Channel) (s : State) :
  let r := forEachAcc channels ChannelsQuery.removeOne [] s in
  let removed := fst (fst r) in
  let s1 := snd (fst r) in
  ChannelsQuery._handleRemoveEvent channels s
  = (tt,
     mkState (set_totalSize (totalSize (this s1) - Z.of_nat (length removed))
                (this s1))
             (arrays s1),
     snd r ++
     map (fun p => TriggerChange
                     (RemoveDelta (snd p) (_getData (dataType (this s1)) (fst p))))
       removed).
Proof.
  intros r removed s1. subst removed s1 r.
  unfold ChannelsQuery._handleRemoveEvent. unfold bind.
  destruct (forEachAcc channels ChannelsQuery.removeOne [] s)
    as [[acc s1] out1].
  unfold getThis, setThis. cbn [fst snd this arrays].
  rewrite removeDeltas_run. reflexivity.
Qed.

(** What [_handleRemoveEvent] does, in terms of the array and the deltas. *)
Lemma handleRemoveEvent_spec (channels : list Channel) (s : State) :
  let t := dataType (this s) in
  let removed := snd (removeAll channels (items s)) in
  let r := ChannelsQuery._handleRemoveEvent channels s in
  let s' := snd (fst r) in
  items s' = fst (removeAll channels (items s)) /\
  snd r = map (fun p => TriggerChange
                          (RemoveDelta (snd p) (_getData t (fst p)))) removed /\
  totalSize (this s') = totalSize (this s) - Z.of_nat (length removed) /\
  dataType (this s') = t /\
  (t = InstanceDataType ->
     data (this s') = data (this s) /\
     (removed <> [] -> arrays s' = <[data (this s) := items s']> (arrays s))) /\
  (t = ObjectDataType -> removed <> [] -> data (this s') ∉ dom (arrays s)) /\
  (removed = [] -> s' = s).
Proof.
  intros t removed r s'. subst r s'.
  pose proof (removeLoop_spec channels [] s) as Hloop. cbv zeta in Hloop.
  fold t removed in Hloop.
  rewrite handleRemoveEvent_run.
  destruct (forEachAcc channels ChannelsQuery.removeOne [] s)
    as [[acc s1] out1] eqn:Hrun.
  cbn [fst snd] in *.
  destruct Hloop as (Hacc & Hcalls & Hitems & Hsize & Htype & Hdom
                     & Hinst & Hobj & Hnone).
  simpl in Hacc. subst acc out1. cbn [app].
  unfold items at 1. cbn [this arrays data set_totalSize totalSize dataType].
  fold (items s1). rewrite Htype.
  split; [exact Hitems |]. split; [reflexivity |].
  split; [rewrite Hsize; reflexivity |]. split; [reflexivity |].
  split; [| split].
  - intros Hinstance. destruct (Hinst Hinstance) as [Hdata Hheap].
    split; [exact Hdata |]. intros Hne.
    unfold items at 1. cbn [this arrays data set_totalSize].
    fold (items s1). apply Hheap. exact Hne.
  - exact Hobj.
  - intros Hempty. rewrite (Hnone Hempty). rewrite Hempty. simpl.
    destruct s as [q h]. destruct q. unfold set_totalSize. simpl.
    rewrite Z.sub_0_r. reflexivity.
Qed.

(** ** The change handler *)

Lemma bind_pure {A B : Type} (m : M A) (k : A -> M B) (s : State) (a : A) :
  m s = (a, s, []) -> bind m k s = k a s.
Proof.
  intros Hm. unfold bind. rewrite Hm.
  destruct (k a s) as [[b s2] out2]. reflexivity.
Qed.

(** The index under which [_handleChangeEvent] finds the entity. *)
Lemma changeIndex_run {A : Type} (t : DataType) (evt : ChangeEvent)
    (s : State) (k : Z -> M A) :
  dataType (this s) = t ->
  bind (_getIndex (id (target evt)))
    (fun index0 =>
       bind (if isObjectDataType t then
               match getChangesFor "id" evt with
               | idChange :: _ => _getIndex (oldValue idChange)
               | [] => ret index0
               end
             else ret index0) k) s
  = k (indexFrom (referencedId t evt) (items s) 0) s.
Proof.
  intros Ht.
  rewrite (bind_pure _ _ s _ (getIndex_run _ s)).
  apply bind_pure. unfold referencedId.
  destruct t; cbn [isObjectDataType]; [reflexivity |].
  destruct (getChangesFor "id" evt) as [| idChange rest]; reflexivity.
Qed.

Lemma handleChangeEvent_run (sf : string) (evt : ChangeEvent) (s : State) :
  ChannelsQuery._handleChangeEvent sf evt s
  = (fun index =>
       if negb (index =? -1) then
         let reorder :=
           hasProperty "lastMessage" evt && String.eqb sf "last_message" in
         bind
           (if isObjectDataType (dataType (this s)) then
              if negb reorder then
                bind readData (fun arr =>
                bind (assignNewData
                        (JsArray.slice 0 index arr ++ [toObject (target evt)]
                         ++ JsArray.sliceFrom (index + 1) arr))
                     (fun _ => ret None))
              else
                bind readData (fun arr =>
                let newIndex := _getInsertIndex sf (target evt) arr in
                bind (spliceData index 1 []) (fun _ =>
                bind (spliceData newIndex 0
                        [_getData (dataType (this s)) (target evt)]) (fun _ =>
                bind readData (fun arr' =>
                bind (assignNewData (JsArray.concat arr' [])) (fun _ =>
                ret (Some newIndex))))))
            else if reorder then
              bind readData (fun arr =>
              let newIndex := _getInsertIndex sf (target evt) arr in
              bind (if negb (newIndex =? index) then
                      bind (spliceData index 1 []) (fun _ =>
                      spliceData newIndex 0 [Instance (target evt)])
                    else ret tt) (fun _ =>
              ret (Some newIndex)))
            else ret None)
           (fun newIndex =>
              bind (_triggerChange
                      (PropertyDelta
                         (_getData (dataType (this s)) (target evt)) true
                         (changes evt)))
                (fun _ =>
                   match newIndex with
                   | Some toIndex =>
                       if reorder && negb (toIndex =? index) then
                         _triggerChange
                           (MoveDelta
                              (_getData (dataType (this s)) (target evt))
                              false index toIndex)
                       else ret tt
                   | None => ret tt
                   end))
       else ret tt)
      (indexFrom (referencedId (dataType (this s)) evt) (items s) 0) s.
Proof.
  unfold ChannelsQuery._handleChangeEvent.
  rewrite (bind_pure getThis _ s (this s) eq_refl).
  rewrite (changeIndex_run (dataType (this s)) evt s _ eq_refl).
  reflexivity.
Qed.

(** An event whose looked-up ID is not in the array changes nothing. *)
Lemma handleChangeEvent_absent (sf : string) (evt : ChangeEvent) (s : State) :
  indexFrom (referencedId (dataType (this s)) evt) (items s) 0 = -1 ->
  ChannelsQuery._handleChangeEvent sf evt s = (tt, s, []).
Proof.
  intros Habs. rewrite handleChangeEvent_run. cbv beta.
  rewrite Habs. reflexivity.
Qed.

(** What [_handleChangeEvent] does for an event whose looked-up ID is in
    the array. *)
Lemma handleChangeEvent_spec (sf : string) (evt : ChangeEvent) (s : State) :
  let t := dataType (this s) in
  let index := indexFrom (referencedId t evt) (items s) 0 in
  let reorder :=
    hasProperty "lastMessage" evt && String.eqb sf "last_message" in
  let newIndex := _getInsertIndex sf (target evt) (items s) in
  let x := _getData t (target evt) in
  let moved := JsArray.splice newIndex 0 [x] (JsArray.splice index 1 [] (items s)) in
  let r := ChannelsQuery._handleChangeEvent sf evt s in
  let s' := snd (fst r) in
  index <> -1 ->
  snd r = TriggerChange (PropertyDelta x true (changes evt))
          :: (if reorder && negb (newIndex =? index)
              then [TriggerChange (MoveDelta x false index newIndex)]
              else []) /\
  totalSize (this s') = totalSize (this s) /\
  dataType (this s') = t /\
  (t = ObjectDataType ->
     (data (this s') ∉ dom (arrays s)) /\
     items s' = if reorder then moved
                else <[Z.to_nat index := x]> (items s)) /\
  (t = InstanceDataType ->
     data (this s') = data (this s) /\
     if reorder && negb (newIndex =? index)
     then items s' = moved /\
          arrays s' = <[data (this s) := moved]> (arrays s)
     else s' = s).
Proof.
  intros t index reorder newIndex x moved r s' Hfound.
  assert (Hrange : 0 <= index < Z.of_nat (length (items s))).
  { destruct (indexFrom_range (referencedId t evt) (items s) 0) as [H | H];
      [contradiction | fold index in H; lia]. }
  subst r s'. rewrite handleChangeEvent_run. cbv beta zeta.
  fold t index reorder.
  destruct (Z.eqb_spec index (-1)) as [Heq | _]; [contradiction |].
  cbn [negb].
  destruct t eqn:Ht; cbn [isObjectDataType].
  - (* instance data type *)
    destruct reorder eqn:Hre; cbn [negb andb].
    + run. fold (items s) newIndex. subst moved x.
      clearbody newIndex index.
      destruct (newIndex =? index) eqn:Hcmp; cbn; rewrite ?Hcmp; cbn.
      * split; [reflexivity |]. split; [reflexivity |].
        split; [exact Ht |]. split; [discriminate |]. intros _.
        split; [reflexivity |]. destruct s; reflexivity.
      * split; [reflexivity |]. split; [reflexivity |].
        split; [exact Ht |]. split; [discriminate |]. intros _.
        split; [reflexivity |].
        unfold items at 1. cbn. rewrite !lookup_total_insert_eq.
        fold (items s). rewrite insert_insert_eq.
        split; reflexivity.
    + run. cbn.
      split; [reflexivity |]. split; [reflexivity |].
      split; [exact Ht |]. split; [discriminate |]. intros _.
      split; [reflexivity |]. destruct s; reflexivity.
  - (* object data type *)
    destruct reorder eqn:Hre; cbn [negb andb].
    + run. fold (items s) newIndex. subst moved x.
      clearbody newIndex index. cbn.
      rewrite !lookup_total_insert_eq. fold (items s).
      destruct (newIndex =? index) eqn:Hcmp; cbn; rewrite ?Hcmp; cbn.
      all: split; [reflexivity |]; split; [reflexivity |];
           split; [exact Ht |];
           (split; [| discriminate]); intros _;
           (split;
            [ intros Hold;
              apply (fresh_not_in_heap
                (<[data (this s) :=
                     JsArray.splice newIndex 0 [toObject (target evt)]
                       (JsArray.splice index 1 [] (items s))]>
                   (<[data (this s) := JsArray.splice index 1 [] (items s)]>
                      (arrays s))));
              do 2 apply dom_insert_keeps; exact Hold
            | unfold items at 1; cbn;
              rewrite lookup_total_insert_eq;
              apply app_nil_r ]).
    + run. fold (items s). subst x. clearbody index. cbn.
      split; [reflexivity |]. split; [reflexivity |].
      split; [exact Ht |]. split; [| discriminate]. intros _.
      split; [apply fresh_not_in_heap |].
      unfold items at 1. cbn. rewrite lookup_total_insert_eq.
      apply (slice_replace index (toObject (target evt)) (items s) Hrange).
Qed.

(** ** The in-flight request check *)

Lemma channels_fetchData_run (pageSize : Z) (s : State) :
  let request :=
    requestSignature "channels" pageSize (_nextServerFromId (this s)) in
  ChannelsQuery._fetchData pageSize s
  = if String.eqb request (_firingRequest (this s))
    then (tt, s, [LoadChannels (_nextDBFromId (this s)) pageSize])
    else (tt,
          mkState (set_firingRequest request (set_isFiring true (this s)))
                  (arrays s),
          [LoadChannels (_nextDBFromId (this s)) pageSize;
           Xhr "channel_query_time" request "GET" false]).
Proof.
  intros request. subst request. unfold requestSignature. run.
  cbn [String.append].
  destruct (String.eqb _ (_firingRequest (this s))); reflexivity.
Qed.

Lemma identities_fetchData_run (pageSize : Z) (s : State) :
  let request :=
    requestSignature "identities" pageSize (_nextServerFromId (this s)) in
  let load :=
    if negb (truthy (_nextDBFromId (this s))) then [LoadIdentities] else [] in
  IdentitiesQuery._fetchData pageSize s
  = if String.eqb request (_firingRequest (this s))
    then (tt, s, load)
    else (tt,
          mkState (set_firingRequest request (set_isFiring true (this s)))
                  (arrays s),
          load ++ [Xhr "identity_query_time" request "GET" false]).
Proof.
  intros request load. subst request load. unfold requestSignature. run.
  cbn [String.append].
  destruct (negb (truthy (_nextDBFromId (this s))));
    destruct (String.eqb _ (_firingRequest (this s))); reflexivity.
Qed.

(** C9. When the request built from the page size and the server cursor
    is the one in [_firingRequest], [_fetchData] leaves the state as it is
    and issues no network request; otherwise it issues exactly that
    request and records it, with [isFiring] set. This holds for
    [ChannelsQuery] and for [IdentitiesQuery]. *)
Theorem fetchData_skips_firing_request (pageSize : Z) (s : State) :
  let channels :=
    requestSignature "channels" pageSize (_nextServerFromId (this s)) in
  let identities :=
    requestSignature "identities" pageSize (_nextServerFromId (this s)) in
  (channels = _firingRequest (this s) ->
     stateAfter (ChannelsQuery._fetchData pageSize) s = s /\
     List.filter isXhr (callsOf (ChannelsQuery._fetchData pageSize) s) = []) /\
  (channels <> _firingRequest (this s) ->
     let s' := stateAfter (ChannelsQuery._fetchData pageSize) s in
     List.filter isXhr (callsOf (ChannelsQuery._fetchData pageSize) s)
     = [Xhr "channel_query_time" channels "GET" false] /\
     isFiring (this s') = true /\ _firingRequest (this s') = channels) /\
  (identities = _firingRequest (this s) ->
     stateAfter (IdentitiesQuery._fetchData pageSize) s = s /\
     List.filter isXhr (callsOf (IdentitiesQuery._fetchData pageSize) s) = []) /\
  (identities <> _firingRequest (this s) ->
     let s' := stateAfter (IdentitiesQuery._fetchData pageSize) s in
     List.filter isXhr (callsOf (IdentitiesQuery._fetchData pageSize) s)
     = [Xhr "identity_query_time" identities "GET" false] /\
     isFiring (this s') = true /\ _firingRequest (this s') = identities).
Proof.
  intros channels identities.
  unfold stateAfter, callsOf.
  rewrite channels_fetchData_run, identities_fetchData_run.
  cbv zeta. fold channels identities.
  destruct (String.eqb_spec channels (_firingRequest (this s)))
    as [Hc | Hc];
    destruct (String.eqb_spec identities (_firingRequest (this s)))
      as [Hi | Hi];
    destruct (negb (truthy (_nextDBFromId (this s))));
    cbn [fst snd List.filter isXhr app this isFiring _firingRequest
         set_firingRequest set_isFiring];
    (split; [intros H | split; [intros H | split; intros H]]);
    try contradiction; repeat split; reflexivity.
Qed.

Lemma fetchData_skips_firing_request_witness :
  (stateAfter (ChannelsQuery._fetchData 25)
     (firingState "channels?page_size=25&from_id=c7" "c7")
   = firingState "channels?page_size=25&from_id=c7" "c7" /\
   List.filter isXhr
     (callsOf (ChannelsQuery._fetchData 25)
        (firingState "channels?page_size=25&from_id=c7" "c7")) = []) /\
  List.filter isXhr
    (callsOf (ChannelsQuery._fetchData 25) (firingState "" ""))
  = [Xhr "channel_query_time" "channels?page_size=25" "GET" false] /\
  (stateAfter (IdentitiesQuery._fetchData 500)
     (firingState "identities?page_size=500" "")
   = firingState "identities?page_size=500" "" /\
   List.filter isXhr
     (callsOf (IdentitiesQuery._fetchData 500)
        (firingState "identities?page_size=500" "")) = []) /\
  List.filter isXhr
    (callsOf (IdentitiesQuery._fetchData 500)
       (firingState "identities?page_size=25" ""))
  = [Xhr "identity_query_time" "identities?page_size=500" "GET" false].
Proof.
  split.
  - apply (fetchData_skips_firing_request 25
             (firingState "channels?page_size=25&from_id=c7" "c7")).
    vm_compute. reflexivity.
  - split.
    + apply (fetchData_skips_firing_request 25 (firingState "" "")).
      vm_compute. discriminate.
    + split.
      * apply (fetchData_skips_firing_request 500
                 (firingState "identities?page_size=500" "")).
        vm_compute. reflexivity.
      * apply (fetchData_skips_firing_request 500
                 (firingState "identities?page_size=25" "")).
        vm_compute. discriminate.
Defined.

(** ** Add events: no entity twice *)

Lemma notYetPresent_In (arr : list Item) (channels : list Channel)
    (c : Channel) :
  In c (notYetPresent arr channels)
  <-> In c channels /\ ~ In (id c) (itemIds arr).
Proof.
  split.
  - intros Hin. split; [| exact (notYetPresent_absent _ _ _ Hin)].
    unfold notYetPresent in Hin. apply List.filter_In in Hin. tauto.
  - intros [Hin Habs]. unfold notYetPresent. apply List.filter_In.
    split; [exact Hin |]. apply negb_true_iff.
    destruct (existsb (String.eqb (id c)) (itemIds arr)) eqn:Hex;
      [| reflexivity].
    apply existsb_exists in Hex. destruct Hex as (j & Hj & Heq).
    apply String.eqb_eq in Heq. subst j. contradiction.
Qed.

(** C4, for an event that names no entity twice. Handling an add event
    on an array without duplicate IDs leaves out every entity whose ID is
    in the array, places each other entity once, at its insert index,
    emits one insert delta with that index and the projected entity for
    each, adds their number to [totalSize], and leaves an array without
    duplicate IDs. *)
Theorem handleAddEvent_inserts_once (sf : string) (channels : list Channel)
    (s : State) :
  NoDup (itemIds (items s)) ->
  NoDup (map id channels) ->
  let t := dataType (this s) in
  let added := notYetPresent (items s) channels in
  let deltas := insertDeltas sf t added (items s) in
  let s' := stateAfter (ChannelsQuery._handleAddEvent sf channels) s in
  (forall c, In c added <->
             In c channels /\ ~ In (id c) (itemIds (items s))) /\
  callsOf (ChannelsQuery._handleAddEvent sf channels) s
  = map TriggerChange deltas /\
  placedInOrder sf t added (items s) deltas (items s') /\
  Permutation (itemIds (items s')) (map id added ++ itemIds (items s)) /\
  totalSize (this s') = totalSize (this s) + Z.of_nat (length added) /\
  NoDup (itemIds (items s')).
Proof.
  intros Hnodup Hevent t added deltas s'.
  destruct (handleAddEvent_spec sf channels s)
    as (Hitems & Hcalls & Hsize & _).
  fold t added in Hitems, Hcalls, Hsize.
  assert (Hperm :
    Permutation (itemIds (items s')) (map id added ++ itemIds (items s))).
  { unfold s', stateAfter. rewrite Hitems. apply itemIds_insertAll. }
  split; [intros c; apply notYetPresent_In |].
  split; [exact Hcalls |].
  split.
  { unfold s', stateAfter. rewrite Hitems. apply insertAll_placedInOrder. }
  split; [exact Hperm |].
  split; [exact Hsize |].
  rewrite Hperm.
  apply NoDup_app. split; [| split].
  - apply NoDup_map_filter. exact Hevent.
  - intros i Hin Hold.
    apply list_elem_of_In in Hin. apply list_elem_of_In in Hold.
    apply in_map_iff in Hin. destruct Hin as (c & <- & Hc).
    exact (notYetPresent_absent _ _ _ Hc Hold).
  - exact Hnodup.
Qed.

Lemma handleAddEvent_inserts_once_witness :
  let s := sampleState ObjectDataType [Snapshot (savedChannel "x" 5)] in
  let channels := [savedChannel "a" 7; savedChannel "x" 5; savedChannel "b" 2] in
  let s' := stateAfter (ChannelsQuery._handleAddEvent "created_at" channels) s in
  callsOf (ChannelsQuery._handleAddEvent "created_at" channels) s
  = map TriggerChange
      (insertDeltas "created_at" ObjectDataType
         (notYetPresent (items s) channels) (items s)) /\
  totalSize (this s') = 1 + 2 /\
  NoDup (itemIds (items s')).
Proof.
  intros s channels s'.
  assert (Hs : NoDup (itemIds (items s))).
  { apply (bool_decide_unpack _). vm_compute. exact I. }
  assert (Hc : NoDup (map id channels)).
  { apply (bool_decide_unpack _). vm_compute. exact I. }
  destruct (handleAddEvent_inserts_once "created_at" channels s Hs Hc)
    as (_ & Hcalls & _ & _ & Hsize & Hnodup).
  split; [exact Hcalls |]. split; [exact Hsize | exact Hnodup].
Defined.

(** C4, as worded: an add event that names one entity twice puts it into
    the array twice. *)
Lemma handleAddEvent_duplicate_in_event :
  let s := sampleState InstanceDataType [] in
  let channels := [savedChannel "a" 1; savedChannel "a" 1] in
  NoDup (itemIds (items s)) /\
  ~ NoDup
      (itemIds
         (items (stateAfter (ChannelsQuery._handleAddEvent "created_at"
                               channels) s))).
Proof.
  split; [vm_compute; apply NoDup_nil_2 |].
  vm_compute. intros Hnd.
  apply NoDup_cons in Hnd. destruct Hnd as [Hin _].
  apply Hin. apply list_elem_of_here.
Qed.

(** ** [totalSize] follows the array *)

(** C5. From a state where [totalSize] is the length of the array, an add
    event and a remove event both lead to such a state; [totalSize] grows
    by one for each insert delta and shrinks by one for each remove
    delta. *)
Theorem totalSize_follows_length (sf : string) (channels : list Channel)
    (s : State) :
  totalSize (this s) = Z.of_nat (length (items s)) ->
  (let s' := stateAfter (ChannelsQuery._handleAddEvent sf channels) s in
   totalSize (this s') = Z.of_nat (length (items s')) /\
   totalSize (this s')
   = totalSize (this s)
     + Z.of_nat (length (callsOf (ChannelsQuery._handleAddEvent sf channels) s)))
  /\
  (let s' := stateAfter (ChannelsQuery._handleRemoveEvent channels) s in
   totalSize (this s') = Z.of_nat (length (items s')) /\
   totalSize (this s')
   = totalSize (this s)
     - Z.of_nat (length (callsOf (ChannelsQuery._handleRemoveEvent channels) s))).
Proof.
  intros Hsize. split.
  - destruct (handleAddEvent_spec sf channels s)
      as (Hitems & Hcalls & Htotal & _).
    unfold stateAfter, callsOf. cbv zeta.
    rewrite Hitems, Hcalls, Htotal.
    rewrite length_map, length_insertDeltas, length_insertAll. lia.
  - destruct (handleRemoveEvent_spec channels s)
      as (Hitems & Hcalls & Htotal & _).
    pose proof (removeAll_length channels (items s)) as Hlen.
    unfold stateAfter, callsOf. cbv zeta.
    rewrite Hitems, Hcalls, Htotal.
    rewrite length_map. lia.
Qed.

Lemma totalSize_follows_length_witness :
  let s :=
    sampleState InstanceDataType
      [Instance (savedChannel "x" 5); Instance (savedChannel "y" 3)] in
  let channels := [savedChannel "y" 3; savedChannel "z" 1] in
  totalSize
    (this (stateAfter (ChannelsQuery._handleAddEvent "created_at" channels) s))
  = 3 /\
  totalSize (this (stateAfter (ChannelsQuery._handleRemoveEvent channels) s))
  = 1.
Proof.
  intros s channels.
  destruct (totalSize_follows_length "created_at" channels s eq_refl)
    as [[Hadd _] [Hremove _]].
  split.
  - rewrite Hadd. vm_compute. reflexivity.
  - rewrite Hremove. vm_compute. reflexivity.
Defined.

(** ** Events for entities that are not in the array *)

Lemma removeAll_none (channels : list Channel) (arr : list Item) :
  snd (removeAll channels arr) = []
  <-> (forall c, In c channels -> ~ In (id c) (itemIds arr)).
Proof.
  induction channels as [| c rest IH]; simpl.
  - split; [intros _ c [] | reflexivity].
  - destruct (Z.eqb_spec (indexFrom (id c) arr 0) (-1)) as [Habs | Hfound].
    + rewrite IH. apply (indexFrom_absent _ _ 0) in Habs; [| lia].
      split.
      * intros Hall c' [<- | Hin]; [exact Habs | exact (Hall c' Hin)].
      * intros Hall c' Hin. apply Hall. right. exact Hin.
    + destruct (removeAll rest (removeAt (indexFrom (id c) arr 0) arr))
        as [arr' removed].
      simpl. split; [discriminate |].
      intros Hall. exfalso. apply Hfound.
      apply (indexFrom_absent _ _ 0); [lia |]. apply Hall. left. reflexivity.
Qed.

(** C8. A change event whose looked-up ID is not in the array, and a
    remove event none of whose entities is in the array, leave the state
    as it is and trigger nothing. *)
Theorem absent_entities_ignored (sf : string) (evt : ChangeEvent)
    (channels : list Channel) (s : State) :
  (~ In (referencedId (dataType (this s)) evt) (itemIds (items s)) ->
     stateAfter (ChannelsQuery._handleChangeEvent sf evt) s = s /\
     callsOf (ChannelsQuery._handleChangeEvent sf evt) s = []) /\
  ((forall c, In c channels -> ~ In (id c) (itemIds (items s))) ->
     stateAfter (ChannelsQuery._handleRemoveEvent channels) s = s /\
     callsOf (ChannelsQuery._handleRemoveEvent channels) s = []).
Proof.
  split.
  - intros Habs. apply (indexFrom_absent _ _ 0) in Habs; [| lia].
    unfold stateAfter, callsOf.
    rewrite (handleChangeEvent_absent sf evt s Habs). split; reflexivity.
  - intros Hall. apply removeAll_none in Hall.
    destruct (handleRemoveEvent_spec channels s)
      as (_ & Hcalls & _ & _ & _ & _ & Hsame).
    unfold stateAfter, callsOf. split; [exact (Hsame Hall) |].
    rewrite Hcalls, Hall. reflexivity.
Qed.

Lemma absent_entities_ignored_witness :
  let s := sampleState ObjectDataType [Snapshot (savedChannel "x" 5)] in
  let evt :=
    mkChangeEvent (channelWithMessage "y" 3 9)
      [mkChange "lastMessage" "m1" "m2"] in
  let channels := [savedChannel "y" 3; savedChannel "z" 1] in
  (stateAfter (ChannelsQuery._handleChangeEvent "last_message" evt) s = s /\
   callsOf (ChannelsQuery._handleChangeEvent "last_message" evt) s = []) /\
  (stateAfter (ChannelsQuery._handleRemoveEvent channels) s = s /\
   callsOf (ChannelsQuery._handleRemoveEvent channels) s = []).
Proof.
  intros s evt channels.
  destruct (absent_entities_ignored "last_message" evt channels s)
    as [Hchange Hremove].
  split.
  - apply Hchange. vm_compute. intros [H | []]. discriminate H.
  - apply Hremove. intros c Hc. vm_compute in Hc.
    destruct Hc as [<- | [<- | []]];
      vm_compute; intros [H | []]; discriminate H.
Defined.

(** ** Change events: the deltas *)

(** C7, for an event whose looked-up ID is in the array. Handling the
    event triggers one property delta. When [lastMessage] changed under
    the ['last_message'] sort and the new insert index differs from the
    index found, the entity is spliced out and spliced in at the new
    index, and one move delta from the old to the new index follows the
    property delta. Otherwise no move delta is triggered. *)
Theorem handleChangeEvent_deltas (sf : string) (evt : ChangeEvent)
    (s : State) :
  In (referencedId (dataType (this s)) evt) (itemIds (items s)) ->
  let t := dataType (this s) in
  let index := indexFrom (referencedId t evt) (items s) 0 in
  let reorder :=
    hasProperty "lastMessage" evt && String.eqb sf "last_message" in
  let newIndex := _getInsertIndex sf (target evt) (items s) in
  let x := _getData t (target evt) in
  let calls := callsOf (ChannelsQuery._handleChangeEvent sf evt) s in
  let s' := stateAfter (ChannelsQuery._handleChangeEvent sf evt) s in
  List.filter isPropertyDelta calls
  = [TriggerChange (PropertyDelta x true (changes evt))] /\
  (reorder = true -> newIndex <> index ->
     items s'
     = JsArray.splice newIndex 0 [x] (JsArray.splice index 1 [] (items s)) /\
     calls = [TriggerChange (PropertyDelta x true (changes evt));
              TriggerChange (MoveDelta x false index newIndex)]) /\
  (reorder = false \/ newIndex = index ->
     calls = [TriggerChange (PropertyDelta x true (changes evt))] /\
     List.filter isMoveDelta calls = []).
Proof.
  intros Hpresent t index reorder newIndex x calls s'.
  assert (Hfound : index <> -1).
  { intros Habs. apply (indexFrom_absent _ _ 0) in Habs; [| lia].
    contradiction. }
  destruct (handleChangeEvent_spec sf evt s Hfound)
    as (Hcalls & _ & _ & Hobj & Hinst).
  fold t index reorder newIndex x in Hcalls, Hobj, Hinst.
  fold (callsOf (ChannelsQuery._handleChangeEvent sf evt) s) in Hcalls.
  fold (stateAfter (ChannelsQuery._handleChangeEvent sf evt) s) in Hobj, Hinst.
  fold calls in Hcalls. fold s' in Hobj, Hinst.
  split; [| split].
  - rewrite Hcalls.
    destruct (reorder && negb (newIndex =? index)); reflexivity.
  - intros Hre Hdiff.
    assert (Hcond : reorder && negb (newIndex =? index) = true).
    { rewrite Hre. simpl. apply negb_true_iff. apply Z.eqb_neq. exact Hdiff. }
    rewrite Hcond in Hcalls, Hinst. split; [| exact Hcalls].
    destruct t eqn:Ht.
    + destruct (Hinst eq_refl) as (_ & Hitems & _). exact Hitems.
    + destruct (Hobj eq_refl) as (_ & Hitems).
      rewrite Hre in Hitems. exact Hitems.
  - intros Hcase.
    assert (Hcond : reorder && negb (newIndex =? index) = false).
    { destruct Hcase as [-> | ->]; [reflexivity |].
      rewrite Z.eqb_refl. apply andb_false_r. }
    rewrite Hcond in Hcalls. rewrite Hcalls. split; reflexivity.
Qed.

Lemma handleChangeEvent_deltas_witness :
  let s :=
    sampleState InstanceDataType
      [Instance (savedChannel "x" 5); Instance (savedChannel "c" 1)] in
  let evt :=
    mkChangeEvent (channelWithMessage "c" 1 9)
      [mkChange "lastMessage" "" "m9"] in
  let renamed :=
    mkChangeEvent (savedChannel "c" 1) [mkChange "name" "old" "new"] in
  (items (stateAfter (ChannelsQuery._handleChangeEvent "last_message" evt) s)
   = [Instance (channelWithMessage "c" 1 9); Instance (savedChannel "x" 5)] /\
   callsOf (ChannelsQuery._handleChangeEvent "last_message" evt) s
   = [TriggerChange
        (PropertyDelta (Instance (channelWithMessage "c" 1 9)) true
           [mkChange "lastMessage" "" "m9"]);
      TriggerChange
        (MoveDelta (Instance (channelWithMessage "c" 1 9)) false 1 0)]) /\
  callsOf (ChannelsQuery._handleChangeEvent "last_message" renamed) s
  = [TriggerChange
       (PropertyDelta (Instance (savedChannel "c" 1)) true
          [mkChange "name" "old" "new"])].
Proof.
  intros s evt renamed.
  assert (Hpresent :
    In (referencedId (dataType (this s)) evt) (itemIds (items s))).
  { vm_compute. right. left. reflexivity. }
  assert (Hpresent' :
    In (referencedId (dataType (this s)) renamed) (itemIds (items s))).
  { vm_compute. right. left. reflexivity. }
  split.
  - destruct (handleChangeEvent_deltas "last_message" evt s Hpresent)
      as (_ & Hmove & _).
    destruct Hmove as [Hitems Hcalls].
    + vm_compute. reflexivity.
    + vm_compute. discriminate.
    + split; [rewrite Hitems | rewrite Hcalls]; vm_compute; reflexivity.
  - destruct (handleChangeEvent_deltas "last_message" renamed s Hpresent')
      as (_ & _ & Hstay).
    destruct Hstay as [Hcalls _].
    + left. vm_compute. reflexivity.
    + rewrite Hcalls. vm_compute. reflexivity.
Defined.

(** C7, as worded: under the object data type, an event that carries an
    ['id'] change is looked up by the old ID only. Here the target's ID
    is in the array, the old ID is not, and no property delta is
    triggered. *)
Lemma handleChangeEvent_target_present_no_delta :
  let s := sampleState ObjectDataType [Snapshot (savedChannel "b" 1)] in
  let evt := mkChangeEvent (savedChannel "b" 1) [mkChange "id" "a" "b"] in
  In (id (target evt)) (itemIds (items s)) /\
  List.filter isPropertyDelta
    (callsOf (ChannelsQuery._handleChangeEvent "created_at" evt) s) = [].
Proof.
  split; [vm_compute; left; reflexivity | vm_compute; reflexivity].
Qed.

(** ** Which array the controller refers to *)



(** ** Worked examples *)

(** In [ChannelsQuery] itself [_getSortField] answers ['created_at'], so
    a change event never asks for a reorder there. *)
Remark channels_never_reorder (evt : ChangeEvent) :
  hasProperty "lastMessage" evt
  && String.eqb ChannelsQuery._getSortField "last_message" = false.
Proof. apply andb_false_r. Qed.

(** Newest first: among channels created at 30, 20 and 10, one created at
    25 goes to index 1. *)
Example insert_between :
  _getInsertIndex ChannelsQuery._getSortField (savedChannel "d" 25)
    [Instance (savedChannel "a" 30); Instance (savedChannel "b" 20);
     Instance (savedChannel "c" 10)] = 1.
Proof. reflexivity. Qed.

(** A channel from the server, added while a NEW channel is at index 0,
    goes behind it. *)
Example add_behind_new_item :
  let s := sampleState InstanceDataType [Instance (newChannel "n" 1)] in
  let run :=
    ChannelsQuery._handleAddEvent ChannelsQuery._getSortField
      [savedChannel "c" 9] s in
  items (snd (fst run))
  = [Instance (newChannel "n" 1); Instance (savedChannel "c" 9)] /\
  snd run = [TriggerChange (InsertDelta 1 (Instance (savedChannel "c" 9)))] /\
  totalSize (this (snd (fst run))) = 2.
Proof. vm_compute. repeat split. Qed.

(** * Further properties of the code *)

(** ** The insert index: bounds and order *)

Lemma firstStop_ext (P Q : Item -> Prop) (arr : list Item) (i : Z) :
  (forall item, item ∈ arr -> (P item <-> Q item)) ->
  firstStop P arr i -> firstStop Q arr i.
Proof.
  intros Hext (Hrange & Hbefore & Hat).
  split; [exact Hrange |]. split.
  - intros j item Hitem Hlt HQ.
    apply (Hbefore j item Hitem Hlt).
    apply Hext; [exact (list_elem_of_lookup_2 _ _ _ Hitem) | exact HQ].
  - intros item Hitem.
    apply Hext; [exact (list_elem_of_lookup_2 _ _ _ Hitem) | auto].
Qed.

(** What stops the scan of a saved candidate, in terms of the order key:
    an item that is not NEW or SAVING and whose key is at most the
    candidate's. *)
Lemma getInsertIndex_firstStop (sf : string) (c : Channel)
    (arr : list Item) :
  isSaved c = true ->
  sf = "created_at" \/ ~ In (id c) (itemIds arr) ->
  firstStop
    (fun item => isNewOrSaving item = false /\
                 orderKey sf (fields item) <= orderKey sf c)
    arr (_getInsertIndex sf c arr).
Proof.
  intros Hsaved Hcase. unfold _getInsertIndex, orderKey.
  rewrite Hsaved. cbn [negb].
  destruct (String.eqb_spec sf "created_at") as [Hsf | Hsf].
  - pose proof (scanCreatedAt_firstStop c arr 0) as Hfs.
    rewrite Z.sub_0_r in Hfs. exact Hfs.
  - destruct Hcase as [Hsf' | Habsent]; [contradiction |].
    destruct (scanRecency_spec c arr 0 (-1)) as (Hfs & Hown).
    destruct (scanRecency c arr 0 (-1)) as [index oldIndex].
    cbn [fst snd] in *. rewrite Z.sub_0_r in Hfs.
    assert (Hold : oldIndex = -1).
    { destruct Hown as [(Heq & _) | (_ & (item & Hitem & Hid) & _)];
        [exact Heq |].
      exfalso. apply Habsent. rewrite <- Hid.
      apply in_map_iff. exists item. split; [reflexivity |].
      apply list_elem_of_In. exact (list_elem_of_lookup_2 _ _ _ Hitem). }
    subst oldIndex. unfold finalIndex. cbn [Z.eqb orb].
    apply (firstStop_ext (stopsRecency c)); [| exact Hfs].
    intros item Hin. unfold stopsRecency. split; [tauto |].
    intros Hq. split; [| exact Hq].
    intros Hid. apply Habsent. rewrite <- Hid.
    apply in_map_iff. exists item. split; [reflexivity |].
    apply list_elem_of_In. exact Hin.
Qed.

(** Inserting at the first stop keeps the order. *)
Lemma firstStop_insert_sorted (sf : string) (kc : Z) (x : Item)
    (arr : list Item) (i : Z) :
  orderKey sf (fields x) = kc ->
  firstStop
    (fun item => isNewOrSaving item = false /\ orderKey sf (fields item) <= kc)
    arr i ->
  sortedFor sf arr -> sortedFor sf (insertAt i x arr).
Proof.
  intros Hkey ((Hlo & Hhi) & Hbefore & Hat) Hsorted.
  unfold sortedFor, insertAt in *.
  rewrite <- (take_drop (Z.to_nat i) arr) in Hsorted.
  apply StronglySorted_app in Hsorted.
  destruct Hsorted as (Hcross & Hleft & Hright).
  apply StronglySorted_app. split; [| split; [exact Hleft |]].
  - intros a b Ha Hb.
    apply elem_of_cons in Hb. destruct Hb as [-> | Hb]; [| auto].
    apply elem_of_take in Ha. destruct Ha as (j & Hj & Hlt).
    assert (Hno := Hbefore j a Hj ltac:(lia)).
    unfold inOrder. destruct (isNewOrSaving a) eqn:Hnew; [left; reflexivity |].
    right. right. rewrite Hkey.
    destruct (Z_le_gt_dec (orderKey sf (fields a)) kc) as [Hle | Hgt];
      [exfalso; apply Hno; split; [reflexivity | exact Hle] | lia].
  - apply StronglySorted_cons. split; [| exact Hright].
    apply Forall_forall. intros b Hb.
    destruct (drop (Z.to_nat i) arr) as [| first rest] eqn:Hdrop;
      [apply elem_of_nil in Hb; contradiction |].
    assert (Hfirst : arr !! Z.to_nat i = Some first).
    { pose proof (lookup_drop arr (Z.to_nat i) 0) as Hl.
      rewrite Hdrop in Hl. simpl in Hl. rewrite Nat.add_0_r in Hl.
      symmetry. exact Hl. }
    destruct (Hat first Hfirst) as [Hnew Hle].
    apply elem_of_cons in Hb. destruct Hb as [-> | Hb].
    + right. right. rewrite Hkey. lia.
    + apply StronglySorted_cons in Hright. destruct Hright as [Hall _].
      rewrite Forall_forall in Hall. specialize (Hall b Hb).
      unfold inOrder in *. destruct Hall as [Hc | [Hbnew | Hge]];
        [congruence | right; left; exact Hbnew |].
      right. right. rewrite Hkey. lia.
Qed.

(** X1. The insert index lies within the array, [0 .. length]; splicing
    the item in at that index puts it exactly there. *)
Theorem getInsertIndex_bounds (sf : string) (c : Channel) (x : Item)
    (arr : list Item) :
  let i := _getInsertIndex sf c arr in
  0 <= i <= Z.of_nat (length arr) /\
  JsArray.splice i 0 [x] arr !! Z.to_nat i = Some x /\
  length (JsArray.splice i 0 [x] arr) = S (length arr).
Proof.
  intros i. pose proof (getInsertIndex_range sf c arr) as Hrange.
  fold i in Hrange. split; [exact Hrange |].
  rewrite (splice_insert i x arr Hrange).
  split; [apply lookup_insertAt; exact Hrange | apply length_insertAt].
Qed.

(** X2. In an array whose items that are not NEW or SAVING stand with
    falling keys, a saved candidate put at its insert index leaves the
    array so ordered. Under a sort field other than ['created_at'] this
    is for a candidate whose ID is not yet in the array. *)
Theorem getInsertIndex_keeps_order (sf : string) (c : Channel) (x : Item)
    (arr : list Item) :
  isSaved c = true ->
  sf = "created_at" \/ ~ In (id c) (itemIds arr) ->
  fields x = c ->
  sortedFor sf arr ->
  sortedFor sf (insertAt (_getInsertIndex sf c arr) x arr).
Proof.
  intros Hsaved Hcase Hx Hsorted.
  apply (firstStop_insert_sorted sf (orderKey sf c)).
  - rewrite Hx. reflexivity.
  - apply getInsertIndex_firstStop; assumption.
  - exact Hsorted.
Qed.

Lemma getInsertIndex_keeps_order_witness :
  sortedFor "last_message"
    (insertAt
       (_getInsertIndex "last_message" (channelWithMessage "c" 1 4)
          [Instance (newChannel "n" 0); Instance (savedChannel "x" 5);
           Instance (savedChannel "y" 2)])
       (Instance (channelWithMessage "c" 1 4))
       [Instance (newChannel "n" 0); Instance (savedChannel "x" 5);
        Instance (savedChannel "y" 2)]).
Proof.
  apply (getInsertIndex_keeps_order "last_message"
           (channelWithMessage "c" 1 4)).
  - reflexivity.
  - right. vm_compute. intros [H | [H | [H | []]]]; discriminate H.
  - reflexivity.
  - unfold sortedFor.
    repeat (apply StronglySorted_cons; split;
            [repeat (apply Forall_cons; split;
                     [first [left; reflexivity
                            | right; right; vm_compute; discriminate] |]);
             apply Forall_nil_2 |]).
    apply SSorted_nil.
Defined.

(** X3. A saved candidate never goes before a run of NEW or SAVING items
    at the head of the array: its insert index is at least the length of
    that run. *)
Theorem getInsertIndex_behind_unsaved (sf : string) (c : Channel)
    (arr : list Item) (k : nat) :
  isSaved c = true ->
  sf = "created_at" \/ ~ In (id c) (itemIds arr) ->
  (k <= length arr)%nat ->
  (forall (i : nat) item,
      arr !! i = Some item -> (i < k)%nat -> isNewOrSaving item = true) ->
  Z.of_nat k <= _getInsertIndex sf c arr.
Proof.
  intros Hsaved Hcase Hk Hrun.
  destruct (getInsertIndex_firstStop sf c arr Hsaved Hcase)
    as ((Hlo & Hhi) & _ & Hat).
  destruct (Z_lt_le_dec (_getInsertIndex sf c arr) (Z.of_nat k))
    as [Hlt | Hge]; [| exact Hge].
  exfalso.
  destruct (lookup_lt_is_Some_2 arr (Z.to_nat (_getInsertIndex sf c arr)))
    as [item Hitem]; [lia |].
  destruct (Hat item Hitem) as [Hnew _].
  rewrite (Hrun _ item Hitem) in Hnew; [discriminate | lia].
Qed.

Lemma getInsertIndex_behind_unsaved_witness :
  2 <= _getInsertIndex "created_at" (savedChannel "c" 9)
         [Instance (newChannel "n" 1); Instance (newChannel "m" 2);
          Instance (savedChannel "x" 5)].
Proof.
  apply (getInsertIndex_behind_unsaved "created_at" (savedChannel "c" 9)
           [Instance (newChannel "n" 1); Instance (newChannel "m" 2);
            Instance (savedChannel "x" 5)] 2).
  - reflexivity.
  - left. reflexivity.
  - simpl. lia.
  - intros [| [| i]] item Hitem Hlt; simpl in Hitem.
    + injection Hitem as <-. reflexivity.
    + injection Hitem as <-. reflexivity.
    + lia.
Defined.

(** ** Add events: order, existing items, repetition *)

Lemma getInsertIndex_unsaved_zero (sf : string) (c : Channel)
    (arr : list Item) :
  isSaved c = false -> _getInsertIndex sf c arr = 0.
Proof. intros H. unfold _getInsertIndex. rewrite H. reflexivity. Qed.

Lemma isNewOrSaving_getData (t : DataType) (c : Channel) :
  isNewOrSaving (_getData t c) = isNewOrSaving (Instance c).
Proof. destruct t; reflexivity. Qed.

Lemma fields_getData (t : DataType) (c : Channel) : fields (_getData t c) = c.
Proof. destruct t; reflexivity. Qed.

Lemma elem_of_insertAt (i : Z) (x y : Item) (arr : list Item) :
  y ∈ insertAt i x arr <-> y = x \/ y ∈ arr.
Proof.
  unfold insertAt. rewrite elem_of_app, elem_of_cons.
  rewrite <- (take_drop (Z.to_nat i) arr) at 3. rewrite elem_of_app. tauto.
Qed.

Lemma insertAll_sorted (sf : string) (t : DataType) (cs : list Channel) :
  forall arr : list Item,
  (forall c, In c cs -> isSaved c = false -> isNewOrSaving (Instance c) = true) ->
  sf = "created_at" \/
    (NoDup (map id cs) /\ forall c, In c cs -> ~ In (id c) (itemIds arr)) ->
  sortedFor sf arr ->
  sortedFor sf (insertAll sf t cs arr).
Proof.
  induction cs as [| c rest IH]; intros arr Hunsaved Hcase Hsorted; simpl.
  - exact Hsorted.
  - apply IH.
    + intros c' Hin. apply Hunsaved. right. exact Hin.
    + destruct Hcase as [Hsf | [Hnodup Habsent]]; [left; exact Hsf |].
      right. apply NoDup_cons in Hnodup. destruct Hnodup as [Hc Hrest].
      split; [exact Hrest |].
      intros c' Hin Hid.
      apply in_map_iff in Hid. destruct Hid as (y & Hy & Hyin).
      apply list_elem_of_In, elem_of_insertAt in Hyin.
      destruct Hyin as [-> | Hyin].
      * rewrite fields_getData in Hy. apply Hc. rewrite Hy.
        apply list_elem_of_In. apply in_map. exact Hin.
      * apply (Habsent c'); [right; exact Hin |].
        rewrite <- Hy. apply in_map_iff. exists y.
        split; [reflexivity | apply list_elem_of_In; exact Hyin].
    + destruct (isSaved c) eqn:Hsaved.
      * apply (firstStop_insert_sorted sf (orderKey sf c)).
        -- rewrite fields_getData. reflexivity.
        -- apply getInsertIndex_firstStop; [exact Hsaved |].
           destruct Hcase as [Hsf | [_ Habsent]]; [left; exact Hsf |].
           right. apply Habsent. left. reflexivity.
        -- exact Hsorted.
      * rewrite (getInsertIndex_unsaved_zero sf c arr Hsaved).
        unfold insertAt. simpl. rewrite drop_0.
        apply StronglySorted_cons. split; [| exact Hsorted].
        apply Forall_forall. intros b _. left.
        rewrite isNewOrSaving_getData.
        apply Hunsaved; [left; reflexivity | exact Hsaved].
Qed.

(** X4. The add handler keeps the order of the array: when the items
    that are not NEW or SAVING stand with falling keys before the event,
    they do afterwards. This is for entities that are NEW or SAVING when
    [isSaved()] is false, and, under a sort field other than
    ['created_at'], for an event that names no entity twice. *)
Theorem handleAddEvent_keeps_order (sf : string) (channels : list Channel)
    (s : State) :
  (forall c, In c channels ->
     isSaved c = false -> isNewOrSaving (Instance c) = true) ->
  sf = "created_at" \/ NoDup (map id channels) ->
  sortedFor sf (items s) ->
  sortedFor sf (items (stateAfter (ChannelsQuery._handleAddEvent sf channels) s)).
Proof.
  intros Hunsaved Hcase Hsorted.
  destruct (handleAddEvent_spec sf channels s) as (Hitems & _).
  unfold stateAfter. rewrite Hitems.
  apply insertAll_sorted.
  - intros c Hin. apply Hunsaved.
    apply notYetPresent_In in Hin. tauto.
  - destruct Hcase as [Hsf | Hnodup]; [left; exact Hsf |].
    right. split.
    + apply NoDup_map_filter. exact Hnodup.
    + intros c Hin. exact (notYetPresent_absent _ _ _ Hin).
  - exact Hsorted.
Qed.

Lemma handleAddEvent_keeps_order_witness :
  sortedFor "created_at"
    (items
       (stateAfter
          (ChannelsQuery._handleAddEvent "created_at"
             [savedChannel "a" 7; newChannel "m" 0; savedChannel "b" 2])
          (sampleState InstanceDataType
             [Instance (newChannel "n" 1); Instance (savedChannel "x" 5)]))).
Proof.
  apply handleAddEvent_keeps_order.
  - intros c Hin Hsaved. vm_compute in Hin.
    destruct Hin as [<- | [<- | [<- | []]]];
      first [reflexivity | discriminate Hsaved].
  - left. reflexivity.
  - unfold sortedFor.
    repeat (apply StronglySorted_cons; split;
            [repeat (apply Forall_cons; split;
                     [first [left; reflexivity
                            | right; right; vm_compute; discriminate] |]);
             apply Forall_nil_2 |]).
    apply SSorted_nil.
Defined.

Lemma sublist_insertAt (i : Z) (x : Item) (arr : list Item) :
  arr `sublist_of` insertAt i x arr.
Proof.
  unfold insertAt.
  rewrite <- (take_drop (Z.to_nat i) arr) at 1.
  apply sublist_app; [reflexivity |]. apply sublist_cons. reflexivity.
Qed.

Lemma sublist_insertAll (sf : string) (t : DataType) (cs : list Channel) :
  forall arr : list Item, arr `sublist_of` insertAll sf t cs arr.
Proof.
  induction cs as [| c rest IH]; intros arr; simpl; [reflexivity |].
  etransitivity; [apply sublist_insertAt | apply IH].
Qed.

Lemma handleAddEvent_all_present (sf : string) (channels : list Channel)
    (s : State) (c : Channel) :
  In c channels ->
  In (id c)
    (itemIds (items (stateAfter (ChannelsQuery._handleAddEvent sf channels) s))).
Proof.
  intros Hin.
  destruct (handleAddEvent_spec sf channels s) as (Hitems & _).
  unfold stateAfter. rewrite Hitems.
  apply (Permutation_in _ (Permutation_sym (itemIds_insertAll sf _ _ _))).
  apply in_or_app.
  destruct (in_dec string_dec (id c) (itemIds (items s))) as [Hold | Hnew];
    [right; exact Hold | left].
  apply in_map. apply notYetPresent_In. split; assumption.
Qed.

(** X5. The add handler takes nothing out of the array and keeps what
    was there in its order, and afterwards an item with the ID of each
    entity of the event is in the array. *)
Theorem handleAddEvent_keeps_existing (sf : string) (channels : list Channel)
    (s : State) :
  let s' := stateAfter (ChannelsQuery._handleAddEvent sf channels) s in
  items s `sublist_of` items s' /\
  (forall c, In c channels -> In (id c) (itemIds (items s'))) /\
  (forall c, In c channels -> indexFrom (id c) (items s') 0 <> -1).
Proof.
  intros s'. split; [| split].
  - destruct (handleAddEvent_spec sf channels s) as (Hitems & _).
    unfold s', stateAfter. rewrite Hitems. apply sublist_insertAll.
  - intros c Hin. apply handleAddEvent_all_present. exact Hin.
  - intros c Hin Habs.
    apply (indexFrom_absent _ _ 0) in Habs; [| lia].
    apply Habs. apply handleAddEvent_all_present. exact Hin.
Qed.

(** X6. Handling the same add event a second time does nothing: the
    state stays and no delta is triggered. *)
Theorem handleAddEvent_idempotent (sf : string) (channels : list Channel)
    (s : State) :
  let s' := stateAfter (ChannelsQuery._handleAddEvent sf channels) s in
  stateAfter (ChannelsQuery._handleAddEvent sf channels) s' = s' /\
  callsOf (ChannelsQuery._handleAddEvent sf channels) s' = [].
Proof.
  intros s'.
  assert (Hnone : notYetPresent (items s') channels = []).
  { destruct (notYetPresent (items s') channels) as [| c rest] eqn:Hlist;
      [reflexivity |].
    exfalso.
    assert (Hc : In c (notYetPresent (items s') channels))
      by (rewrite Hlist; left; reflexivity).
    apply notYetPresent_In in Hc. destruct Hc as [Hin Habs].
    apply Habs. apply handleAddEvent_all_present. exact Hin. }
  destruct (handleAddEvent_spec sf channels s')
    as (_ & Hcalls & _ & _ & _ & _ & Hsame).
  unfold stateAfter, callsOf in *.
  split; [exact (Hsame Hnone) |].
  rewrite Hcalls, Hnone. reflexivity.
Qed.

(** ** Add and remove: round trip, and what a remove event leaves *)

Lemma indexFrom_app_here (k : string) (x : Item) (l1 l2 : list Item) (off : Z) :
  ~ In k (itemIds l1) -> id (fields x) = k ->
  indexFrom k (l1 ++ x :: l2) off = off + Z.of_nat (length l1).
Proof.
  revert off. induction l1 as [| y l1 IH]; intros off Habs Hx; simpl.
  - rewrite Hx, String.eqb_refl. lia.
  - destruct (String.eqb_spec (id (fields y)) k) as [Hy | Hy].
    + exfalso. apply Habs. left. exact Hy.
    + rewrite IH; [lia | | exact Hx].
      intros Hin. apply Habs. right. exact Hin.
Qed.

Lemma indexFrom_insertAt (k : string) (x : Item) (arr : list Item) (i : Z) :
  ~ In k (itemIds arr) -> id (fields x) = k ->
  0 <= i <= Z.of_nat (length arr) ->
  indexFrom k (insertAt i x arr) 0 = i.
Proof.
  intros Habs Hx Hi. unfold insertAt.
  rewrite indexFrom_app_here; [| | exact Hx].
  - rewrite length_take. lia.
  - intros Hin. apply Habs. unfold itemIds in *.
    apply in_map_iff in Hin. destruct Hin as (y & Hy & Hin).
    apply in_map_iff. exists y. split; [exact Hy |].
    apply list_elem_of_In in Hin. apply list_elem_of_In.
    apply elem_of_take in Hin. destruct Hin as (j & Hj & _).
    exact (list_elem_of_lookup_2 _ _ _ Hj).
Qed.

Lemma removeAt_insertAt (x : Item) (arr : list Item) (i : Z) :
  0 <= i <= Z.of_nat (length arr) ->
  removeAt i (insertAt i x arr) = arr.
Proof.
  intros Hi. unfold removeAt, insertAt.
  rewrite take_app_length' by (rewrite length_take; lia).
  rewrite (cons_middle x), app_assoc.
  rewrite drop_app_length'
    by (rewrite length_app, length_take; simpl; lia).
  apply take_drop.
Qed.

(** X7. Adding an entity whose ID is not in the array and then removing
    it gives back the array and [totalSize]; the remove delta names the
    index of the insert delta. *)
Theorem add_then_remove_restores (sf : string) (c : Channel) (s : State) :
  ~ In (id c) (itemIds (items s)) ->
  let i := _getInsertIndex sf c (items s) in
  let x := _getData (dataType (this s)) c in
  let s1 := stateAfter (ChannelsQuery._handleAddEvent sf [c]) s in
  let s2 := stateAfter (ChannelsQuery._handleRemoveEvent [c]) s1 in
  callsOf (ChannelsQuery._handleAddEvent sf [c]) s
  = [TriggerChange (InsertDelta i x)] /\
  callsOf (ChannelsQuery._handleRemoveEvent [c]) s1
  = [TriggerChange (RemoveDelta i x)] /\
  items s2 = items s /\
  totalSize (this s2) = totalSize (this s).
Proof.
  intros Habs i x s1 s2.
  assert (Hadded : notYetPresent (items s) [c] = [c]).
  { unfold notYetPresent. simpl.
    destruct (existsb (String.eqb (id c)) (itemIds (items s))) eqn:Hex;
      [| reflexivity].
    apply existsb_exists in Hex. destruct Hex as (j & Hj & Heq).
    apply String.eqb_eq in Heq. subst j. contradiction. }
  destruct (handleAddEvent_spec sf [c] s)
    as (Hitems1 & Hcalls1 & Hsize1 & Htype1 & _).
  rewrite Hadded in Hitems1, Hcalls1, Hsize1. simpl in Hitems1, Hcalls1, Hsize1.
  fold (stateAfter (ChannelsQuery._handleAddEvent sf [c]) s)
    in Hitems1, Hsize1, Htype1.
  fold s1 in Hitems1, Hsize1, Htype1. fold i x in Hitems1, Hcalls1.
  pose proof (getInsertIndex_range sf c (items s)) as Hrange.
  fold i in Hrange.
  assert (Hindex : indexFrom (id c) (items s1) 0 = i).
  { rewrite Hitems1. apply indexFrom_insertAt; [exact Habs | | exact Hrange].
    unfold x. apply f_equal. apply fields_getData. }
  destruct (handleRemoveEvent_spec [c] s1)
    as (Hitems2 & Hcalls2 & Hsize2 & _).
  simpl in Hitems2, Hcalls2, Hsize2. rewrite Hindex in Hitems2, Hcalls2, Hsize2.
  destruct (Z.eqb_spec i (-1)) as [Hneg | _]; [lia |].
  simpl in Hitems2, Hcalls2, Hsize2.
  fold (stateAfter (ChannelsQuery._handleRemoveEvent [c]) s1)
    in Hitems2, Hsize2.
  fold s2 in Hitems2, Hsize2.
  split; [exact Hcalls1 |].
  split; [unfold callsOf; rewrite Hcalls2, Htype1; reflexivity |].
  split.
  - rewrite Hitems2, Hitems1. apply removeAt_insertAt. exact Hrange.
  - lia.
Qed.

Lemma add_then_remove_restores_witness :
  let s :=
    sampleState ObjectDataType
      [Snapshot (savedChannel "x" 5); Snapshot (savedChannel "y" 3)] in
  let c := savedChannel "c" 4 in
  items
    (stateAfter (ChannelsQuery._handleRemoveEvent [c])
       (stateAfter (ChannelsQuery._handleAddEvent "created_at" [c]) s))
  = items s.
Proof.
  intros s c.
  destruct (add_then_remove_restores "created_at" c s) as (_ & _ & H & _).
  - vm_compute. intros [H | [H | []]]; discriminate H.
  - exact H.
Defined.

Lemma filter_all (p : Item -> bool) (arr : list Item) :
  (forall item, In item arr -> p item = true) -> List.filter p arr = arr.
Proof.
  induction arr as [| y rest IH]; intros Hall; simpl; [reflexivity |].
  rewrite (Hall y (or_introl eq_refl)). f_equal.
  apply IH. intros item Hin. apply Hall. right. exact Hin.
Qed.

Lemma filter_twice (p q : Item -> bool) (arr : list Item) :
  List.filter p (List.filter q arr)
  = List.filter (fun item => q item && p item) arr.
Proof.
  induction arr as [| y rest IH]; simpl; [reflexivity |].
  destruct (q y); simpl; [destruct (p y) |]; rewrite IH; reflexivity.
Qed.

(** Taking out the first item with an ID, in an array without duplicate
    IDs, takes out every item with that ID. *)
Lemma removeAt_indexFrom (k : string) (arr : list Item) (off : Z) :
  NoDup (itemIds arr) ->
  indexFrom k arr off <> -1 -> 0 <= off ->
  removeAt (indexFrom k arr off - off) arr
  = List.filter (fun item => negb (String.eqb (id (fields item)) k)) arr.
Proof.
  revert off. induction arr as [| y rest IH]; intros off Hnodup Hfound Hoff;
    simpl in *; [contradiction |].
  apply NoDup_cons in Hnodup. destruct Hnodup as [Hy Hrest].
  destruct (String.eqb_spec (id (fields y)) k) as [Hid | Hid]; simpl.
  - replace (off - off) with 0 by lia.
    unfold removeAt. simpl. rewrite drop_0. symmetry. apply filter_all.
    intros item Hin. apply negb_true_iff. apply String.eqb_neq.
    intros Heq. apply Hy. rewrite Hid, <- Heq.
    apply list_elem_of_In.
    apply (in_map (fun it => id (fields it))). exact Hin.
  - destruct (indexFrom_range k rest (off + 1)) as [Habs | Hrange];
      [contradiction |].
    specialize (IH (off + 1) Hrest Hfound ltac:(lia)).
    rewrite <- IH. unfold removeAt.
    replace (Z.to_nat (indexFrom k rest (off + 1) - off))
      with (S (Z.to_nat (indexFrom k rest (off + 1) - (off + 1)))) by lia.
    reflexivity.
Qed.

Lemma removeAll_withoutIds (channels : list Channel) :
  forall arr : list Item,
  NoDup (itemIds arr) ->
  fst (removeAll channels arr) = withoutIds channels arr.
Proof.
  induction channels as [| c rest IH]; intros arr Hnodup; simpl.
  - unfold withoutIds. simpl. symmetry. apply filter_all. reflexivity.
  - destruct (Z.eqb_spec (indexFrom (id c) arr 0) (-1)) as [Habs | Hfound].
    + rewrite IH by exact Hnodup. unfold withoutIds.
      apply List.filter_ext_in. intros item Hin. simpl.
      destruct (String.eqb_spec (id (fields item)) (id c)) as [Hid | _];
        [| reflexivity].
      exfalso. apply (indexFrom_absent _ _ 0) in Habs; [| lia].
      apply Habs. rewrite <- Hid.
      apply (in_map (fun it => id (fields it))). exact Hin.
    + pose proof (removeAt_indexFrom (id c) arr 0 Hnodup Hfound ltac:(lia))
        as Hfilter.
      rewrite Z.sub_0_r in Hfilter.
      specialize (IH (removeAt (indexFrom (id c) arr 0) arr)).
      destruct (removeAll rest (removeAt (indexFrom (id c) arr 0) arr))
        as [arr' removed].
      cbn [fst] in *. rewrite IH.
      * rewrite Hfilter. unfold withoutIds. rewrite filter_twice.
        apply List.filter_ext. intros item. simpl.
        destruct (String.eqb (id (fields item)) (id c)); reflexivity.
      * rewrite Hfilter. apply NoDup_map_filter. exact Hnodup.
Qed.

(** X8. On an array without duplicate IDs the remove handler leaves
    exactly the items whose ID the event does not name, in their order;
    no ID of the event is left, and the IDs stay without duplicates. *)
Theorem handleRemoveEvent_filters (channels : list Channel) (s : State) :
  NoDup (itemIds (items s)) ->
  let s' := stateAfter (ChannelsQuery._handleRemoveEvent channels) s in
  items s' = withoutIds channels (items s) /\
  (forall c, In c channels -> ~ In (id c) (itemIds (items s'))) /\
  NoDup (itemIds (items s')).
Proof.
  intros Hnodup s'.
  destruct (handleRemoveEvent_spec channels s) as (Hitems & _).
  fold (stateAfter (ChannelsQuery._handleRemoveEvent channels) s) in Hitems.
  fold s' in Hitems.
  rewrite (removeAll_withoutIds channels (items s) Hnodup) in Hitems.
  split; [exact Hitems |]. rewrite Hitems. split.
  - intros c Hin Hid. unfold withoutIds, itemIds in Hid.
    apply in_map_iff in Hid. destruct Hid as (item & Hitem & Hfilter).
    apply List.filter_In in Hfilter. destruct Hfilter as [_ Hkeep].
    apply negb_true_iff in Hkeep.
    assert (Ht : existsb (String.eqb (id (fields item))) (map id channels) = true).
    { apply existsb_exists. exists (id c).
      split; [apply in_map; exact Hin |].
      rewrite Hitem. apply String.eqb_refl. }
    congruence.
  - apply NoDup_map_filter. exact Hnodup.
Qed.

Lemma handleRemoveEvent_filters_witness :
  items
    (stateAfter
       (ChannelsQuery._handleRemoveEvent
          [savedChannel "y" 3; savedChannel "z" 1; savedChannel "x" 5])
       (sampleState InstanceDataType
          [Instance (savedChannel "x" 5); Instance (savedChannel "w" 4);
           Instance (savedChannel "y" 3)]))
  = [Instance (savedChannel "w" 4)].
Proof.
  destruct (handleRemoveEvent_filters
              [savedChannel "y" 3; savedChannel "z" 1; savedChannel "x" 5]
              (sampleState InstanceDataType
                 [Instance (savedChannel "x" 5); Instance (savedChannel "w" 4);
                  Instance (savedChannel "y" 3)])) as (H & _).
  - apply (bool_decide_unpack _). vm_compute. exact I.
  - rewrite H. vm_compute. reflexivity.
Defined.

Lemma sublist_removeAt (i : Z) (arr : list Item) :
  removeAt i arr `sublist_of` arr.
Proof.
  unfold removeAt. rewrite <- delete_take_drop. apply sublist_delete.
Qed.

Lemma sublist_removeAll (channels : list Channel) :
  forall arr : list Item, fst (removeAll channels arr) `sublist_of` arr.
Proof.
  induction channels as [| c rest IH]; intros arr; simpl; [reflexivity |].
  destruct (indexFrom (id c) arr 0 =? -1); [apply IH |].
  specialize (IH (removeAt (indexFrom (id c) arr 0) arr)).
  destruct (removeAll rest (removeAt (indexFrom (id c) arr 0) arr))
    as [arr' removed].
  cbn [fst] in *. etransitivity; [exact IH | apply sublist_removeAt].
Qed.

Lemma StronglySorted_sublist (R : Item -> Item -> Prop) (l k : list Item) :
  l `sublist_of` k -> StronglySorted R k -> StronglySorted R l.
Proof.
  induction 1 as [| y l k Hsub IH | y l k Hsub IH]; intros Hsorted.
  - exact Hsorted.
  - apply StronglySorted_cons in Hsorted. destruct Hsorted as [Hall Hk].
    apply StronglySorted_cons. split; [| auto].
    rewrite Forall_forall in *. intros b Hb. apply Hall.
    exact (elem_of_sublist _ _ _ Hb Hsub).
  - apply StronglySorted_cons in Hsorted. destruct Hsorted as [_ Hk]. auto.
Qed.

(** X9. The remove handler only takes items out: what is left stands in
    the order it had, so an ordered array stays ordered, whatever the
    event names. *)
Theorem handleRemoveEvent_keeps_order (sf : string) (channels : list Channel)
    (s : State) :
  let s' := stateAfter (ChannelsQuery._handleRemoveEvent channels) s in
  items s' `sublist_of` items s /\
  (sortedFor sf (items s) -> sortedFor sf (items s')).
Proof.
  intros s'.
  destruct (handleRemoveEvent_spec channels s) as (Hitems & _).
  fold (stateAfter (ChannelsQuery._handleRemoveEvent channels) s) in Hitems.
  fold s' in Hitems.
  assert (Hsub : items s' `sublist_of` items s)
    by (rewrite Hitems; apply sublist_removeAll).
  split; [exact Hsub |].
  apply StronglySorted_sublist. exact Hsub.
Qed.

(** ** The deltas, replayed *)

Lemma triggered_map (deltas : list Delta) :
  triggered (map TriggerChange deltas) = deltas.
Proof.
  induction deltas as [| d rest IH]; simpl; [reflexivity |].
  f_equal. exact IH.
Qed.

Lemma replay_insertDeltas (sf : string) (t : DataType) (cs : list Channel) :
  forall arr : list Item,
  replay (insertDeltas sf t cs arr) arr = insertAll sf t cs arr.
Proof.
  induction cs as [| c rest IH]; intros arr; simpl; [reflexivity |].
  apply IH.
Qed.

Lemma replay_removeAll (t : DataType) (channels : list Channel) :
  forall arr : list Item,
  replay
    (map (fun p => RemoveDelta (snd p) (_getData t (fst p)))
       (snd (removeAll channels arr))) arr
  = fst (removeAll channels arr).
Proof.
  induction channels as [| c rest IH]; intros arr; simpl; [reflexivity |].
  destruct (indexFrom (id c) arr 0 =? -1); [apply IH |].
  specialize (IH (removeAt (indexFrom (id c) arr 0) arr)).
  destruct (removeAll rest (removeAt (indexFrom (id c) arr 0) arr))
    as [arr' removed].
  cbn [fst snd] in *. simpl. exact IH.
Qed.

(** X10. A consumer that applies the insert deltas of an add event, or
    the remove deltas of a remove event, in the order they are triggered
    to its copy of the array as it was before the event, ends with the
    array the controller has after the event. *)
Theorem deltas_replay (sf : string) (channels : list Channel) (s : State) :
  replay (triggered (callsOf (ChannelsQuery._handleAddEvent sf channels) s))
    (items s)
  = items (stateAfter (ChannelsQuery._handleAddEvent sf channels) s) /\
  replay (triggered (callsOf (ChannelsQuery._handleRemoveEvent channels) s))
    (items s)
  = items (stateAfter (ChannelsQuery._handleRemoveEvent channels) s).
Proof.
  split.
  - destruct (handleAddEvent_spec sf channels s) as (Hitems & Hcalls & _).
    unfold callsOf, stateAfter. rewrite Hitems, Hcalls, triggered_map.
    apply replay_insertDeltas.
  - destruct (handleRemoveEvent_spec channels s) as (Hitems & Hcalls & _).
    unfold callsOf, stateAfter. rewrite Hitems, Hcalls.
    rewrite <- (map_map
      (fun p => RemoveDelta (snd p) (_getData (dataType (this s)) (fst p)))
      TriggerChange).
    rewrite triggered_map. apply replay_removeAll.
Qed.

(** ** Sequences of events *)

Lemma length_splice_insert (i : Z) (x : Item) (arr : list Item) :
  length (JsArray.splice i 0 [x] arr) = S (length arr).
Proof.
  unfold JsArray.splice, JsArray.relIndex.
  rewrite !length_app, length_take, length_drop. simpl.
  destruct (i <? 0); lia.
Qed.

Lemma length_moved (index newIndex : Z) (x : Item) (arr : list Item) :
  0 <= index < Z.of_nat (length arr) ->
  length (JsArray.splice newIndex 0 [x] (JsArray.splice index 1 [] arr))
  = length arr.
Proof.
  intros Hindex. rewrite length_splice_insert.
  rewrite (splice_remove index arr Hindex).
  apply length_removeAt. exact Hindex.
Qed.

Lemma handleChangeEvent_length (sf : string) (evt : ChangeEvent) (s : State) :
  let s' := stateAfter (ChannelsQuery._handleChangeEvent sf evt) s in
  length (items s') = length (items s) /\
  totalSize (this s') = totalSize (this s).
Proof.
  intros s'.
  destruct (Z.eq_dec
    (indexFrom (referencedId (dataType (this s)) evt) (items s) 0) (-1))
    as [Habs | Hfound].
  - unfold s', stateAfter.
    rewrite (handleChangeEvent_absent sf evt s Habs). split; reflexivity.
  - assert (Hrange :
      0 <= indexFrom (referencedId (dataType (this s)) evt) (items s) 0
        < Z.of_nat (length (items s))).
    { destruct (indexFrom_range (referencedId (dataType (this s)) evt)
                  (items s) 0) as [H | H]; [contradiction | lia]. }
    destruct (handleChangeEvent_spec sf evt s Hfound)
      as (_ & Hsize & _ & Hobj & Hinst).
    fold (stateAfter (ChannelsQuery._handleChangeEvent sf evt) s)
      in Hsize, Hobj, Hinst.
    fold s' in Hsize, Hobj, Hinst.
    split; [| exact Hsize].
    destruct (dataType (this s)) eqn:Ht.
    + destruct (Hinst eq_refl) as [_ Hcase].
      destruct (_ && negb _).
      * destruct Hcase as [Hitems _]. rewrite Hitems.
        apply length_moved. exact Hrange.
      * rewrite Hcase. reflexivity.
    + destruct (Hobj eq_refl) as [_ Hitems]. rewrite Hitems.
      destruct (_ && _).
      * apply length_moved. exact Hrange.
      * apply length_insert.
Qed.

Lemma handleEvents_totalSize (sf name : string) (evt : LayerEvent)
    (s : State) :
  totalSize (this s) = Z.of_nat (length (items s)) ->
  let s' := stateAfter (ChannelsQuery._handleEvents sf name evt) s in
  totalSize (this s') = Z.of_nat (length (items s')).
Proof.
  intros Hinv. unfold ChannelsQuery._handleEvents.
  destruct (String.eqb name "channels:change").
  - destruct (handleChangeEvent_length sf (changeOf evt) s) as [Hlen Hsize].
    cbv zeta. rewrite Hlen, Hsize. exact Hinv.
  - destruct (String.eqb name "channels:add").
    + destruct (handleAddEvent_spec sf (listOf evt) s)
        as (Hitems & _ & Hsize & _).
      unfold stateAfter. cbv zeta. rewrite Hitems, Hsize.
      rewrite length_insertAll. lia.
    + destruct (String.eqb name "channels:remove").
      * destruct (handleRemoveEvent_spec (listOf evt) s)
          as (Hitems & _ & Hsize & _).
        pose proof (removeAll_length (listOf evt) (items s)) as Hlen.
        unfold stateAfter. cbv zeta. rewrite Hitems, Hsize. lia.
      * exact Hinv.
Qed.

(** X11. Through any sequence of events handed to [_handleEvents],
    change events and events of other names included, [totalSize] stays
    the length of the array once it is. *)
Theorem handleAll_totalSize (sf : string)
    (events : list (string * LayerEvent)) (s : State) :
  totalSize (this s) = Z.of_nat (length (items s)) ->
  let s' := stateAfter (handleAll sf events) s in
  totalSize (this s') = Z.of_nat (length (items s')).
Proof.
  revert s. induction events as [| [name evt] rest IH]; intros s Hinv.
  - exact Hinv.
  - pose proof (handleEvents_totalSize sf name evt s Hinv) as Hstep.
    cbv zeta in *. unfold handleAll, stateAfter in *. simpl forEach.
    unfold bind.
    destruct (ChannelsQuery._handleEvents sf name evt s)
      as [[[] s1] out1] eqn:Hrun.
    cbn [fst snd] in *.
    specialize (IH s1 Hstep).
    destruct (forEach rest _ s1) as [[[] s2] out2].
    exact IH.
Qed.

Lemma handleAll_totalSize_witness :
  totalSize
    (this
       (stateAfter
          (handleAll "last_message"
             [("channels:add",
               mkLayerEvent (mkChangeEvent (savedChannel "a" 7) [])
                 [savedChannel "a" 7; savedChannel "b" 2]);
              ("channels:change",
               mkLayerEvent
                 (mkChangeEvent (channelWithMessage "b" 2 9)
                    [mkChange "lastMessage" "" "m9"]) []);
              ("conversations:add",
               mkLayerEvent (mkChangeEvent (savedChannel "a" 7) [])
                 [savedChannel "q" 1]);
              ("channels:remove",
               mkLayerEvent (mkChangeEvent (savedChannel "a" 7) [])
                 [savedChannel "x" 5])])
          (sampleState ObjectDataType [Snapshot (savedChannel "x" 5)])))
  = 2.
Proof.
  rewrite handleAll_totalSize; [| reflexivity].
  vm_compute. reflexivity.
Defined.

(** ** Fetching twice *)

(** X12. A second [_fetchData] with the same page size, right after the
    first, issues no network request and leaves the state as the first
    call left it, for [ChannelsQuery] and for [IdentitiesQuery]. *)
Theorem fetchData_repeated (pageSize : Z) (s : State) :
  (let s1 := stateAfter (ChannelsQuery._fetchData pageSize) s in
   stateAfter (ChannelsQuery._fetchData pageSize) s1 = s1 /\
   List.filter isXhr (callsOf (ChannelsQuery._fetchData pageSize) s1) = []) /\
  (let s1 := stateAfter (IdentitiesQuery._fetchData pageSize) s in
   stateAfter (IdentitiesQuery._fetchData pageSize) s1 = s1 /\
   List.filter isXhr (callsOf (IdentitiesQuery._fetchData pageSize) s1) = []).
Proof.
  split.
  - assert (Hfiring :
      requestSignature "channels" pageSize
        (_nextServerFromId
           (this (stateAfter (ChannelsQuery._fetchData pageSize) s)))
      = _firingRequest
          (this (stateAfter (ChannelsQuery._fetchData pageSize) s))).
    { unfold stateAfter. rewrite channels_fetchData_run. cbv zeta.
      destruct (String.eqb_spec
        (requestSignature "channels" pageSize (_nextServerFromId (this s)))
        (_firingRequest (this s))) as [Heq | _]; [exact Heq | reflexivity]. }
    cbv zeta.
    set (s1 := stateAfter (ChannelsQuery._fetchData pageSize) s) in *.
    unfold stateAfter at 1. unfold callsOf.
    rewrite (channels_fetchData_run pageSize s1). cbv zeta.
    rewrite Hfiring, String.eqb_refl. split; reflexivity.
  - assert (Hfiring :
      requestSignature "identities" pageSize
        (_nextServerFromId
           (this (stateAfter (IdentitiesQuery._fetchData pageSize) s)))
      = _firingRequest
          (this (stateAfter (IdentitiesQuery._fetchData pageSize) s))).
    { unfold stateAfter. rewrite identities_fetchData_run. cbv zeta.
      destruct (String.eqb_spec
        (requestSignature "identities" pageSize (_nextServerFromId (this s)))
        (_firingRequest (this s))) as [Heq | _]; [exact Heq | reflexivity]. }
    cbv zeta.
    set (s1 := stateAfter (IdentitiesQuery._fetchData pageSize) s) in *.
    unfold stateAfter at 1. unfold callsOf.
    rewrite (identities_fetchData_run pageSize s1). cbv zeta.
    rewrite Hfiring, String.eqb_refl. cbn [fst snd].
    split; [reflexivity |].
    destruct (negb (truthy (_nextDBFromId (this s1)))); reflexivity.
Qed.

(** ** Merging a page item by item *)

Lemma channels_append_run (c : Channel) (s : State) :
  ChannelsQuery._appendResultsSplice c s
  = (tt,
     mkState (this s)
       (<[data (this s) := _getData (dataType (this s)) c :: items s]>
          (arrays s)),
     []).
Proof. reflexivity. Qed.

Lemma identities_append_run (c : Channel) (s : State) :
  IdentitiesQuery._appendResultsSplice c s
  = (tt,
     mkState (this s)
       (<[data (this s) := items s ++ [_getData (dataType (this s)) c]]>
          (arrays s)),
     []).
Proof. reflexivity. Qed.

(** X13. Merging a page by calling [_appendResultsSplice] for each of its
    items in turn puts the page in front of the array in reverse order in
    [ChannelsQuery], and behind the array in page order in
    [IdentitiesQuery]. *)
Theorem appendPage_order (page : list Channel) (s : State) :
  let t := dataType (this s) in
  items (stateAfter (appendPage ChannelsQuery._appendResultsSplice page) s)
  = rev (map (_getData t) page) ++ items s /\
  items (stateAfter (appendPage IdentitiesQuery._appendResultsSplice page) s)
  = items s ++ map (_getData t) page.
Proof.
  intros t. subst t. unfold appendPage, stateAfter. split.
  - revert s. induction page as [| c rest IH]; intros s; [reflexivity |].
    rewrite (forEach_cons _ _ _ _ _ _ (channels_append_run c s)).
    cbn [fst snd]. rewrite IH. cbn [this].
    unfold items at 1. cbn [this arrays].
    rewrite lookup_total_insert_eq.
    simpl. rewrite <- app_assoc. reflexivity.
  - revert s. induction page as [| c rest IH]; intros s;
      [simpl; rewrite app_nil_r; reflexivity |].
    rewrite (forEach_cons _ _ _ _ _ _ (identities_append_run c s)).
    cbn [fst snd]. rewrite IH. cbn [this].
    unfold items at 1. cbn [this arrays].
    rewrite lookup_total_insert_eq.
    simpl. rewrite <- app_assoc. reflexivity.
Qed.

(** ** Change events: where the entity was and where it is *)

Lemma indexFrom_found (i : string) (arr : list Item) (k : Z) :
  indexFrom i arr k <> -1 ->
  exists item,
    arr !! Z.to_nat (indexFrom i arr k - k) = Some item /\
    id (fields item) = i.
Proof.
  revert k. induction arr as [| item rest IH]; intros k; simpl.
  - intros H. contradiction.
  - destruct (String.eqb_spec (id (fields item)) i) as [Heq | Hne].
    + intros _. exists item. replace (Z.to_nat (k - k)) with 0%nat by lia.
      split; [reflexivity | exact Heq].
    + intros Hfound. destruct (IH (k + 1) Hfound) as (it & Hit & Hid).
      exists it. split; [| exact Hid].
      destruct (indexFrom_range i rest (k + 1)) as [Hr | Hr]; [contradiction |].
      replace (Z.to_nat (indexFrom i rest (k + 1) - k))
        with (S (Z.to_nat (indexFrom i rest (k + 1) - (k + 1)))) by lia.
      exact Hit.
Qed.

(** Under a sort field other than ['created_at'], the insert index of a
    candidate that has a slot in the array is a position of the array. *)
Lemma getInsertIndex_present_lt (sf : string) (c : Channel)
    (arr : list Item) :
  sf <> "created_at" ->
  In (id c) (itemIds arr) ->
  0 <= _getInsertIndex sf c arr < Z.of_nat (length arr).
Proof.
  intros Hsf Hin.
  pose proof (getInsertIndex_range sf c arr) as Hrange.
  split; [lia |].
  assert (Hlen : 0 < Z.of_nat (length arr)).
  { destruct arr; [contradiction | simpl; lia]. }
  unfold _getInsertIndex in *.
  destruct (isSaved c); cbn [negb] in *; [| exact Hlen].
  destruct (String.eqb_spec sf "created_at") as [Heq | _]; [contradiction |].
  destruct (scanRecency_spec c arr 0 (-1)) as (((Hlo & Hhi) & _) & Hown).
  destruct (scanRecency c arr 0 (-1)) as [index oldIndex].
  cbn [fst snd] in *. rewrite Z.sub_0_r in *.
  unfold finalIndex in *.
  destruct Hown as [(-> & Hnone) | (Hold & _)].
  - rewrite Z.eqb_refl. cbn [orb].
    destruct (Z.eq_dec index (Z.of_nat (length arr))) as [Hend | Hne];
      [| lia].
    exfalso. apply in_map_iff in Hin. destruct Hin as (item & Hid & Hitem).
    apply list_elem_of_In, list_elem_of_lookup_1 in Hitem.
    destruct Hitem as [j Hj].
    apply (Hnone j item Hj); [| exact Hid].
    apply lookup_lt_Some in Hj. lia.
  - destruct (Z.eqb_spec oldIndex (-1)) as [Hneg | _]; [lia |].
    destruct (Z.gtb_spec oldIndex index) as [Hgt | _]; [lia |].
    cbn [orb]. lia.
Qed.

(** X14. After a move, the deltas tell the truth about positions: when
    the entity is looked up by its own ID, [fromIndex] is where an item
    with that ID stood before the event and [toIndex] is where the
    entity stands after it. *)
Theorem move_delta_positions (sf : string) (evt : ChangeEvent) (s : State) :
  let t := dataType (this s) in
  let index := indexFrom (id (target evt)) (items s) 0 in
  let newIndex := _getInsertIndex sf (target evt) (items s) in
  let x := _getData t (target evt) in
  let s' := stateAfter (ChannelsQuery._handleChangeEvent sf evt) s in
  referencedId t evt = id (target evt) ->
  In (id (target evt)) (itemIds (items s)) ->
  hasProperty "lastMessage" evt && String.eqb sf "last_message" = true ->
  newIndex <> index ->
  callsOf (ChannelsQuery._handleChangeEvent sf evt) s
  = [TriggerChange (PropertyDelta x true (changes evt));
     TriggerChange (MoveDelta x false index newIndex)] /\
  (exists item,
      items s !! Z.to_nat index = Some item /\
      id (fields item) = id (target evt)) /\
  items s' !! Z.to_nat newIndex = Some x.
Proof.
  intros t index newIndex x s' Hkey Hpresent Hreorder Hdiff.
  assert (Hfound : index <> -1).
  { intros Habs. apply (indexFrom_absent _ _ 0) in Habs; [| lia].
    contradiction. }
  assert (Hrange : 0 <= index < Z.of_nat (length (items s))).
  { destruct (indexFrom_range (id (target evt)) (items s) 0) as [H | H];
      [contradiction | fold index in H; lia]. }
  assert (Hsf : sf <> "created_at").
  { apply andb_true_iff in Hreorder. destruct Hreorder as [_ Heq].
    apply String.eqb_eq in Heq. subst sf. discriminate. }
  pose proof (getInsertIndex_present_lt sf (target evt) (items s) Hsf Hpresent)
    as Hnew.
  fold newIndex in Hnew.
  assert (Hfound' :
    indexFrom (referencedId (dataType (this s)) evt) (items s) 0 <> -1).
  { fold t. rewrite Hkey. exact Hfound. }
  destruct (handleChangeEvent_spec sf evt s Hfound')
    as (Hcalls & _ & _ & Hobj & Hinst).
  fold t in Hcalls, Hobj, Hinst. rewrite Hkey in Hcalls, Hobj, Hinst.
  fold index newIndex x in Hcalls, Hobj, Hinst.
  fold (stateAfter (ChannelsQuery._handleChangeEvent sf evt) s) in Hobj, Hinst.
  fold s' in Hobj, Hinst.
  rewrite Hreorder in Hcalls, Hobj, Hinst.
  assert (Hcmp : negb (newIndex =? index) = true).
  { apply negb_true_iff. apply Z.eqb_neq. exact Hdiff. }
  cbn [andb] in Hcalls, Hinst. rewrite Hcmp in Hcalls, Hinst.
  split; [exact Hcalls |].
  split.
  { pose proof (indexFrom_found (id (target evt)) (items s) 0 Hfound) as Hit.
    fold index in Hit. rewrite Z.sub_0_r in Hit. exact Hit. }
  assert (Hitems :
    items s'
    = JsArray.splice newIndex 0 [x] (JsArray.splice index 1 [] (items s))).
  { destruct t eqn:Ht.
    - destruct (Hinst eq_refl) as (_ & Hitems & _). exact Hitems.
    - destruct (Hobj eq_refl) as (_ & Hitems). exact Hitems. }
  rewrite Hitems. rewrite (splice_remove index (items s) Hrange).
  pose proof (length_removeAt index (items s) Hrange) as Hlen.
  rewrite splice_insert by lia.
  apply lookup_insertAt. lia.
Qed.

Lemma move_delta_positions_witness :
  let s :=
    sampleState InstanceDataType
      [Instance (savedChannel "x" 5); Instance (savedChannel "y" 3);
       Instance (savedChannel "c" 1)] in
  let evt :=
    mkChangeEvent (channelWithMessage "c" 1 4)
      [mkChange "lastMessage" "" "m4"] in
  items (stateAfter (ChannelsQuery._handleChangeEvent "last_message" evt) s)
    !! 1%nat
  = Some (Instance (channelWithMessage "c" 1 4)).
Proof.
  intros s evt.
  destruct (move_delta_positions "last_message" evt s) as (_ & _ & H).
  - reflexivity.
  - vm_compute. right. right. left. reflexivity.
  - reflexivity.
  - vm_compute. discriminate.
  - exact H.
Defined.

(** ** The object data type: arrays that are never written *)

Lemma lookup_fresh_insert (h : gmap nat (list Item)) (l : nat)
    (v : list Item) :
  l ∈ dom h -> <[fresh (dom h) := v]> h !! l = h !! l.
Proof.
  intros Hl. apply lookup_insert_ne.
  intros Heq. apply (fresh_not_in_heap h). rewrite Heq. exact Hl.
Qed.

Lemma removeOne_object_frame (acc : list (Channel * Z)) (c : Channel)
    (s : State) (l : nat) :
  dataType (this s) = ObjectDataType ->
  l ∈ dom (arrays s) ->
  arrays (snd (fst (ChannelsQuery.removeOne acc c s))) !! l = arrays s !! l.
Proof.
  intros Ht Hl.
  unfold ChannelsQuery.removeOne. unfold bind at 1.
  rewrite getIndex_run.
  destruct (indexFrom (id c) (items s) 0 =? -1); [reflexivity |].
  cbn [negb]. run. rewrite Ht. cbn [isObjectDataType].
  destruct (String.eqb (id c) (_nextDBFromId (this s)));
    cbn [fst snd this arrays app _nextServerFromId set_nextDBFromId];
    destruct (String.eqb (id c) (_nextServerFromId (this s)));
    cbn [fst snd this arrays app];
    apply lookup_fresh_insert; exact Hl.
Qed.

Lemma removeLoop_object_frame (channels : list Channel) (l : nat) :
  forall (acc : list (Channel * Z)) (s : State),
  dataType (this s) = ObjectDataType ->
  l ∈ dom (arrays s) ->
  arrays (snd (fst (forEachAcc channels ChannelsQuery.removeOne acc s))) !! l
  = arrays s !! l.
Proof.
  induction channels as [| c rest IH]; intros acc s Ht Hl; [reflexivity |].
  pose proof (removeOne_object_frame acc c s l Ht Hl) as Hstep.
  destruct (removeOne_spec acc c s) as [Habsent Hfound].
  destruct (Z.eq_dec (indexFrom (id c) (items s) 0) (-1)) as [Habs | Hpres].
  - rewrite (forEachAcc_cons _ _ _ _ _ _ _ (Habsent Habs)).
    apply IH; assumption.
  - destruct (Hfound Hpres) as (s1 & Hrun & _ & _ & Htype1 & Hdom1 & _).
    rewrite Hrun in Hstep. cbn [fst snd] in Hstep.
    rewrite (forEachAcc_cons _ _ _ _ _ _ _ Hrun).
    rewrite IH; [exact Hstep | rewrite Htype1; exact Ht | apply Hdom1; exact Hl].
Qed.

(** X15. Under the object data type a remove event, and a change event
    that asks for no reorder, never write to an array that existed before
    the event: whoever holds the array the controller referred to before
    still sees it as it was. *)
Theorem object_previous_arrays_untouched (sf : string)
    (channels : list Channel) (evt : ChangeEvent) (s : State) (l : nat) :
  dataType (this s) = ObjectDataType ->
  l ∈ dom (arrays s) ->
  arrays (stateAfter (ChannelsQuery._handleRemoveEvent channels) s) !! l
  = arrays s !! l /\
  (hasProperty "lastMessage" evt && String.eqb sf "last_message" = false ->
   arrays (stateAfter (ChannelsQuery._handleChangeEvent sf evt) s) !! l
   = arrays s !! l).
Proof.
  intros Ht Hl. split.
  - unfold stateAfter. rewrite handleRemoveEvent_run. cbn [fst snd arrays].
    apply removeLoop_object_frame; assumption.
  - intros Hreorder. unfold stateAfter.
    rewrite handleChangeEvent_run. cbv beta zeta.
    rewrite Hreorder, Ht. cbn [isObjectDataType negb].
    destruct (negb (_ =? -1)); [| reflexivity].
    run. cbn. apply lookup_fresh_insert. exact Hl.
Qed.

Lemma object_previous_arrays_untouched_witness :
  let s :=
    sampleState ObjectDataType
      [Snapshot (savedChannel "x" 5); Snapshot (savedChannel "y" 3)] in
  let evt := mkChangeEvent (savedChannel "y" 3) [mkChange "name" "a" "b"] in
  arrays (stateAfter (ChannelsQuery._handleRemoveEvent [savedChannel "x" 5]) s)
    !! 0%nat
  = Some [Snapshot (savedChannel "x" 5); Snapshot (savedChannel "y" 3)] /\
  arrays (stateAfter (ChannelsQuery._handleChangeEvent "created_at" evt) s)
    !! 0%nat
  = Some [Snapshot (savedChannel "x" 5); Snapshot (savedChannel "y" 3)].
Proof.
  intros s evt.
  assert (Hl : 0%nat ∈ dom (arrays s)).
  { apply elem_of_dom. vm_compute. eexists. reflexivity. }
  destruct (object_previous_arrays_untouched "created_at"
              [savedChannel "x" 5] evt s 0%nat eq_refl Hl) as [Hremove Hchange].
  split.
  - rewrite Hremove. vm_compute. reflexivity.
  - rewrite Hchange; [vm_compute; reflexivity | reflexivity].
Defined.

(** ** Change events: the order after a reorder *)

Lemma NoDup_itemIds_lookup (arr : list Item) :
  NoDup (itemIds arr) ->
  forall (i j : nat) (a b : Item),
    arr !! i = Some a -> arr !! j = Some b ->
    id (fields a) = id (fields b) -> i = j.
Proof.
  induction arr as [| y rest IH]; intros Hnodup i j a b Ha Hb Hid;
    [discriminate |].
  simpl in Hnodup. apply NoDup_cons in Hnodup. destruct Hnodup as [Hy Hrest].
  assert (Hin : forall (n : nat) (z : Item),
            rest !! n = Some z -> id (fields z) ∈ itemIds rest).
  { intros n z Hz. apply list_elem_of_In.
    apply (in_map (fun it => id (fields it))). apply list_elem_of_In.
    exact (list_elem_of_lookup_2 _ _ _ Hz). }
  destruct i as [| i], j as [| j]; simpl in Ha, Hb.
  - reflexivity.
  - injection Ha as <-. exfalso. apply Hy. rewrite Hid. exact (Hin j b Hb).
  - injection Hb as <-. exfalso. apply Hy. rewrite <- Hid. exact (Hin i a Ha).
  - f_equal. exact (IH Hrest i j a b Ha Hb Hid).
Qed.

Lemma insertAt_removeAt (p : Z) (y : Item) (arr : list Item) :
  0 <= p -> arr !! Z.to_nat p = Some y ->
  insertAt p y (removeAt p arr) = arr.
Proof.
  intros Hp Hy. unfold insertAt, removeAt.
  pose proof (lookup_lt_Some _ _ _ Hy) as Hlt.
  rewrite take_app_length' by (rewrite length_take; lia).
  rewrite drop_app_length' by (rewrite length_take; lia).
  apply take_drop_middle. exact Hy.
Qed.

(** Under a sort field other than ['created_at'], the insert index of a
    saved candidate that has its slot in the array is the first stop of
    the array without that slot. *)
Lemma getInsertIndex_firstStop_moved (sf : string) (c : Channel)
    (arr : list Item) :
  NoDup (itemIds arr) ->
  sf <> "created_at" ->
  isSaved c = true ->
  indexFrom (id c) arr 0 <> -1 ->
  firstStop
    (fun item => isNewOrSaving item = false /\
                 orderKey sf (fields item) <= orderKey sf c)
    (removeAt (indexFrom (id c) arr 0) arr)
    (_getInsertIndex sf c arr).
Proof.
  intros Hnodup Hsf Hsaved Hfound.
  destruct (indexFrom_found (id c) arr 0 Hfound) as (own & Hown & Hownid).
  rewrite Z.sub_0_r in Hown.
  destruct (indexFrom_range (id c) arr 0) as [Habs | Hprange];
    [contradiction |].
  set (p := indexFrom (id c) arr 0) in *.
  pose proof (lookup_lt_Some _ _ _ Hown) as Hplt.
  assert (Huniq : forall (j : nat) item,
            arr !! j = Some item -> id (fields item) = id c ->
            j = Z.to_nat p).
  { intros j item Hj Hid.
    apply (NoDup_itemIds_lookup arr Hnodup j (Z.to_nat p) item own Hj Hown).
    congruence. }
  assert (Hkey : forall c', orderKey sf c' = sortKey c').
  { intros c'. unfold orderKey.
    destruct (String.eqb_spec sf "created_at"); [contradiction | reflexivity]. }
  assert (Hq : forall (j : nat) item,
            arr !! j = Some item -> j <> Z.to_nat p ->
            (isNewOrSaving item = false /\
             orderKey sf (fields item) <= orderKey sf c
             <-> stopsRecency c item)).
  { intros j item Hj Hne. unfold stopsRecency. rewrite !Hkey.
    split; [| tauto]. intros Hq. split; [| exact Hq].
    intros Hid. apply Hne. exact (Huniq j item Hj Hid). }
  unfold _getInsertIndex. rewrite Hsaved. cbn [negb].
  destruct (String.eqb_spec sf "created_at") as [Heq | _]; [contradiction |].
  destruct (scanRecency_spec c arr 0 (-1))
    as (((Hlo & Hhi) & Hbefore & Hat) & Hslot).
  destruct (scanRecency c arr 0 (-1)) as [index oldIndex].
  cbn [fst snd] in *. rewrite Z.sub_0_r in *.
  unfold removeAt. rewrite <- delete_take_drop.
  assert (Hlen : length (delete (Z.to_nat p) arr) = (length arr - 1)%nat).
  { apply length_delete. eexists. exact Hown. }
  unfold finalIndex.
  destruct (Z_lt_le_dec p index) as [Hlt | Hge].
  - (* the slot stands before the stop *)
    assert (Hold : oldIndex = p).
    { destruct Hslot as [(_ & Hnone) | (Hrange & (it & Hit & Hid) & _)].
      - exfalso. apply (Hnone (Z.to_nat p) own Hown); [lia | exact Hownid].
      - rewrite Z.sub_0_r in Hit.
        pose proof (Huniq _ it Hit Hid). lia. }
    subst oldIndex.
    destruct (Z.eqb_spec p (-1)) as [Hneg | _]; [lia |].
    destruct (Z.gtb_spec p index) as [Hgt | _]; [lia |]. cbn [orb].
    split; [lia |]. split.
    + intros j item Hj Hjlt.
      destruct (Nat.lt_ge_cases j (Z.to_nat p)) as [Hjp | Hjp].
      * rewrite list_lookup_delete_lt in Hj by exact Hjp.
        rewrite (Hq j item Hj ltac:(lia)).
        apply (Hbefore j item Hj). lia.
      * rewrite list_lookup_delete_ge in Hj by exact Hjp.
        rewrite (Hq (S j) item Hj ltac:(lia)).
        apply (Hbefore (S j) item Hj). lia.
    + intros item Hitem.
      rewrite list_lookup_delete_ge in Hitem by lia.
      replace (S (Z.to_nat (index - 1))) with (Z.to_nat index) in Hitem by lia.
      apply (Hq (Z.to_nat index) item Hitem ltac:(lia)).
      exact (Hat item Hitem).
  - (* the slot stands behind the stop *)
    assert (Hne : p <> index).
    { intros Heq. subst index.
      destruct (Hat own Hown) as (Hid & _). contradiction. }
    assert (Hold : oldIndex = -1).
    { destruct Hslot as [(Heq & _) | (Hrange & (it & Hit & Hid) & _)];
        [exact Heq |].
      rewrite Z.sub_0_r in Hit.
      pose proof (Huniq _ it Hit Hid). lia. }
    subst oldIndex. rewrite Z.eqb_refl. cbn [orb].
    split; [lia |]. split.
    + intros j item Hj Hjlt.
      rewrite list_lookup_delete_lt in Hj by lia.
      rewrite (Hq j item Hj ltac:(lia)).
      apply (Hbefore j item Hj). exact Hjlt.
    + intros item Hitem.
      rewrite list_lookup_delete_lt in Hitem by lia.
      apply (Hq (Z.to_nat index) item Hitem ltac:(lia)).
      exact (Hat item Hitem).
Qed.

(** X16. A change event that asks for a reorder keeps the order of the
    array. When the IDs are without duplicates, the entity is looked up
    by its own ID, and the other items stand in order, the array after
    the event stands in order (items that are not NEW or SAVING with
    falling keys), whether the entity moved or stayed. Under the
    instance data type the slot found is taken to hold the entity
    itself. *)
Theorem handleChangeEvent_keeps_order (sf : string) (evt : ChangeEvent)
    (s : State) :
  let t := dataType (this s) in
  let index := indexFrom (id (target evt)) (items s) 0 in
  NoDup (itemIds (items s)) ->
  referencedId t evt = id (target evt) ->
  index <> -1 ->
  hasProperty "lastMessage" evt && String.eqb sf "last_message" = true ->
  (isSaved (target evt) = false ->
   isNewOrSaving (Instance (target evt)) = true) ->
  (t = InstanceDataType ->
   items s !! Z.to_nat index = Some (Instance (target evt))) ->
  sortedFor sf (removeAt index (items s)) ->
  sortedFor sf
    (items (stateAfter (ChannelsQuery._handleChangeEvent sf evt) s)).
Proof.
  intros t index Hnodup Hkey Hfound Hreorder Hunsaved Hlive Hsorted.
  set (newIndex := _getInsertIndex sf (target evt) (items s)).
  set (x := _getData t (target evt)).
  assert (Hrange : 0 <= index < Z.of_nat (length (items s))).
  { destruct (indexFrom_range (id (target evt)) (items s) 0) as [H | H];
      [contradiction | fold index in H; lia]. }
  assert (Hsf : sf <> "created_at").
  { apply andb_true_iff in Hreorder. destruct Hreorder as [_ Heq].
    apply String.eqb_eq in Heq. subst sf. discriminate. }
  assert (Hpresent : In (id (target evt)) (itemIds (items s))).
  { destruct (in_dec string_dec (id (target evt)) (itemIds (items s)))
      as [Hin | Hout]; [exact Hin |].
    apply (indexFrom_absent _ _ 0) in Hout; [contradiction | lia]. }
  pose proof (getInsertIndex_present_lt sf (target evt) (items s) Hsf Hpresent)
    as Hnew.
  fold newIndex in Hnew.
  pose proof (length_removeAt index (items s) Hrange) as Hlen.
  assert (Hplaced :
    sortedFor sf (insertAt newIndex x (removeAt index (items s)))).
  { destruct (isSaved (target evt)) eqn:Hsaved.
    - apply (firstStop_insert_sorted sf (orderKey sf (target evt))).
      + unfold x. rewrite fields_getData. reflexivity.
      + apply getInsertIndex_firstStop_moved; assumption.
      + exact Hsorted.
    - unfold newIndex.
      rewrite (getInsertIndex_unsaved_zero sf (target evt) (items s) Hsaved).
      unfold insertAt. simpl. rewrite drop_0.
      apply StronglySorted_cons. split; [| exact Hsorted].
      apply Forall_forall. intros b _. left.
      unfold x. rewrite isNewOrSaving_getData. apply Hunsaved. reflexivity. }
  assert (Hmoved :
    JsArray.splice newIndex 0 [x] (JsArray.splice index 1 [] (items s))
    = insertAt newIndex x (removeAt index (items s))).
  { rewrite (splice_remove index (items s) Hrange).
    apply splice_insert. lia. }
  assert (Hfound' :
    indexFrom (referencedId (dataType (this s)) evt) (items s) 0 <> -1).
  { fold t. rewrite Hkey. exact Hfound. }
  destruct (handleChangeEvent_spec sf evt s Hfound')
    as (_ & _ & _ & Hobj & Hinst).
  fold t in Hobj, Hinst. rewrite Hkey in Hobj, Hinst.
  fold index newIndex x in Hobj, Hinst.
  fold (stateAfter (ChannelsQuery._handleChangeEvent sf evt) s) in Hobj, Hinst.
  rewrite Hreorder in Hobj, Hinst. cbn [andb] in Hinst.
  destruct t eqn:Ht.
  - destruct (Hinst eq_refl) as [_ Hcase].
    destruct (Z.eqb_spec newIndex index) as [Hsame | Hdiff];
      cbn [negb] in Hcase.
    + rewrite Hcase.
      rewrite <- (insertAt_removeAt index (Instance (target evt)) (items s));
        [| lia | apply Hlive; reflexivity].
      rewrite <- Hsame at 1. exact Hplaced.
    + destruct Hcase as [Hitems _]. rewrite Hitems, Hmoved. exact Hplaced.
  - destruct (Hobj eq_refl) as [_ Hitems].
    rewrite Hitems, Hmoved. exact Hplaced.
Qed.

Lemma handleChangeEvent_keeps_order_witness :
  sortedFor "last_message"
    (items
       (stateAfter
          (ChannelsQuery._handleChangeEvent "last_message"
             (mkChangeEvent (channelWithMessage "c" 1 4)
                [mkChange "lastMessage" "" "m4"]))
          (sampleState ObjectDataType
             [Snapshot (savedChannel "x" 5); Snapshot (savedChannel "y" 3);
              Snapshot (savedChannel "c" 1)]))).
Proof.
  apply handleChangeEvent_keeps_order.
  - apply (bool_decide_unpack _). vm_compute. exact I.
  - reflexivity.
  - vm_compute. discriminate.
  - reflexivity.
  - intros H. discriminate H.
  - intros H. discriminate H.
  - unfold sortedFor.
    replace (removeAt _ _)
      with [Snapshot (savedChannel "x" 5); Snapshot (savedChannel "y" 3)]
      by (vm_compute; reflexivity).
    repeat (apply StronglySorted_cons; split;
            [repeat (apply Forall_cons; split;
                     [first [left; reflexivity
                            | right; right; vm_compute; discriminate] |]);
             apply Forall_nil_2 |]).
    apply SSorted_nil.
Defined.

(** ** The insert index and the candidate's key *)

Lemma firstStop_monotone (P Q : Item -> Prop) (arr : list Item) (i j : Z) :
  (forall item, item ∈ arr -> Q item -> P item) ->
  firstStop P arr i -> firstStop Q arr j -> i <= j.
Proof.
  intros Hsub ((Hilo & Hihi) & Hbefore & _) ((Hjlo & Hjhi) & _ & Hat).
  destruct (Z_le_gt_dec i j) as [Hle | Hgt]; [exact Hle |].
  exfalso.
  destruct (lookup_lt_is_Some_2 arr (Z.to_nat j)) as [item Hitem]; [lia |].
  apply (Hbefore (Z.to_nat j) item Hitem); [lia |].
  apply Hsub; [exact (list_elem_of_lookup_2 _ _ _ Hitem) | exact (Hat item Hitem)].
Qed.

(** X17. The insert index falls as the candidate's key rises: of two
    saved candidates for the same array, the one with the greater key
    never gets the greater index. Under a sort field other than
    ['created_at'] this is for candidates whose IDs are not in the
    array. *)
Theorem getInsertIndex_monotone (sf : string) (c1 c2 : Channel)
    (arr : list Item) :
  isSaved c1 = true -> isSaved c2 = true ->
  sf = "created_at" \/
    (~ In (id c1) (itemIds arr) /\ ~ In (id c2) (itemIds arr)) ->
  orderKey sf c2 <= orderKey sf c1 ->
  _getInsertIndex sf c1 arr <= _getInsertIndex sf c2 arr.
Proof.
  intros Hs1 Hs2 Hcase Hkeys.
  apply (firstStop_monotone
           (fun item => isNewOrSaving item = false /\
                        orderKey sf (fields item) <= orderKey sf c1)
           (fun item => isNewOrSaving item = false /\
                        orderKey sf (fields item) <= orderKey sf c2)
           arr).
  - intros item _ [Hnew Hle]. split; [exact Hnew | lia].
  - apply getInsertIndex_firstStop; [exact Hs1 | tauto].
  - apply getInsertIndex_firstStop; [exact Hs2 | tauto].
Qed.

Lemma getInsertIndex_monotone_witness :
  _getInsertIndex "created_at" (savedChannel "a" 8)
    [Instance (savedChannel "x" 9); Instance (savedChannel "y" 5);
     Instance (savedChannel "z" 2)]
  <= _getInsertIndex "created_at" (savedChannel "b" 3)
       [Instance (savedChannel "x" 9); Instance (savedChannel "y" 5);
        Instance (savedChannel "z" 2)].
Proof.
  apply getInsertIndex_monotone.
  - reflexivity.
  - reflexivity.
  - left. reflexivity.
  - vm_compute. discriminate.
Defined.

Lemma handleRemoveEvent_keeps_order_witness :
  sortedFor "created_at"
    (items
       (stateAfter (ChannelsQuery._handleRemoveEvent [savedChannel "y" 3])
          (sampleState InstanceDataType
             [Instance (savedChannel "x" 5); Instance (savedChannel "y" 3);
              Instance (savedChannel "z" 1)]))).
Proof.
  apply (handleRemoveEvent_keeps_order "created_at" [savedChannel "y" 3]).
  unfold sortedFor.
  repeat (apply StronglySorted_cons; split;
          [repeat (apply Forall_cons; split;
                   [first [left; reflexivity
                          | right; right; vm_compute; discriminate] |]);
           apply Forall_nil_2 |]).
  apply SSorted_nil.
Defined.

(** * The local-cache phase, and the storage of the array *)

(** ** Merging what the local cache returns *)

Lemma bind_run {A B : Type} (m : M A) (k : A -> M B) (s s1 : State) (a : A)
    (out : list Call) :
  m s = (a, s1, out) ->
  bind m k s = (fst (fst (k a s1)), snd (fst (k a s1)), out ++ snd (k a s1)).
Proof.
  intros Hm. unfold bind. rewrite Hm.
  destruct (k a s1) as [[b s2] out2]. reflexivity.
Qed.

Lemma advanceCursor_run (results : list Channel) (fromDb : bool) (s : State) :
  exists s1,
    advanceCursor results fromDb s = (tt, s1, []) /\
    arrays s1 = arrays s /\
    data (this s1) = data (this s) /\
    dataType (this s1) = dataType (this s).
Proof.
  unfold advanceCursor.
  destruct (last results) as [item |]; [destruct fromDb |];
    eexists; (split; [reflexivity |]); repeat split.
Qed.

Lemma copyForObject_run (s : State) :
  exists s2,
    copyForObject s = (tt, s2, []) /\
    items s2 = items s /\
    dataType (this s2) = dataType (this s).
Proof.
  unfold copyForObject. run.
  destruct (dataType (this s)) eqn:Ht; cbn [isObjectDataType].
  - eexists. split; [reflexivity |]. split; [reflexivity | exact Ht].
  - eexists. split; [reflexivity |]. split; [| exact Ht].
    unfold items at 1. cbn. apply lookup_total_insert_eq.
Qed.

Lemma forEach_unshift (page : list Channel) :
  forall s : State,
  exists s',
    forEach page ChannelsQuery._appendResultsSplice s = (tt, s', []) /\
    this s' = this s /\
    items s' = rev (map (_getData (dataType (this s))) page) ++ items s.
Proof.
  induction page as [| c rest IH]; intros s.
  - exists s. repeat split.
  - rewrite (forEach_cons _ _ _ _ _ _ (channels_append_run c s)).
    destruct (IH (mkState (this s)
                    (<[data (this s) := _getData (dataType (this s)) c
                                        :: items s]> (arrays s))))
      as (s' & Hrun & Hthis & Hitems).
    rewrite Hrun. cbn [fst snd app].
    exists s'. split; [reflexivity |]. split; [exact Hthis |].
    rewrite Hitems. cbn [this]. unfold items at 1. cbn [this arrays].
    rewrite lookup_total_insert_eq.
    simpl. rewrite <- app_assoc. reflexivity.
Qed.

Lemma forEach_push (page : list Channel) :
  forall s : State,
  exists s',
    forEach page IdentitiesQuery._appendResultsSplice s = (tt, s', []) /\
    this s' = this s /\
    items s' = items s ++ map (_getData (dataType (this s))) page.
Proof.
  induction page as [| c rest IH]; intros s.
  - exists s. split; [reflexivity |]. split; [reflexivity |].
    simpl. rewrite app_nil_r. reflexivity.
  - rewrite (forEach_cons _ _ _ _ _ _ (identities_append_run c s)).
    destruct (IH (mkState (this s)
                    (<[data (this s) := items s
                                        ++ [_getData (dataType (this s)) c]]>
                       (arrays s))))
      as (s' & Hrun & Hthis & Hitems).
    rewrite Hrun. cbn [fst snd app].
    exists s'. split; [reflexivity |]. split; [exact Hthis |].
    rewrite Hitems. cbn [this]. unfold items at 1. cbn [this arrays].
    rewrite lookup_total_insert_eq.
    simpl. rewrite <- app_assoc. reflexivity.
Qed.

(** The array after [_appendResults], given what the per-item append of
    the class does to it. *)
Lemma appendResults_items (splice : Channel -> M unit)
    (place : list Item -> list Item -> list Item)
    (results : list Channel) (fromDb : bool) (s : State) :
  (forall (page : list Channel) (s0 : State),
      exists s',
        forEach page splice s0 = (tt, s', []) /\
        this s' = this s0 /\
        items s' = place (map (_getData (dataType (this s0))) page) (items s0)) ->
  items (stateAfter (_appendResults splice results fromDb) s)
  = place (map (_getData (dataType (this s)))
             (notYetPresent (items s) results))
      (items s).
Proof.
  intros Hsplice. unfold stateAfter, _appendResults.
  rewrite (bind_pure _ _ s _ (filterM_present results s)).
  destruct (advanceCursor_run results fromDb s)
    as (s1 & Hrun1 & Harr1 & Hdata1 & Htype1).
  rewrite (bind_run _ _ _ _ _ _ Hrun1). cbn [fst snd].
  destruct (copyForObject_run s1) as (s2 & Hrun2 & Hitems2 & Htype2).
  rewrite (bind_run _ _ _ _ _ _ Hrun2). cbn [fst snd].
  destruct (Hsplice (notYetPresent (items s) results) s2)
    as (s3 & Hrun3 & Hthis3 & Hitems3).
  rewrite (bind_run _ _ _ _ _ _ Hrun3). cbn [fst snd].
  unfold bind, getThis, call. cbn [fst snd].
  rewrite Hitems3, Hitems2, Htype2, Htype1.
  unfold items at 2. rewrite Harr1, Hdata1. reflexivity.
Qed.

(** C3. The local-cache phase does not place what the cache returns at
    the insert index. The callback of [_fetchData] hands the page to
    [_appendResults], which calls the per-item append of the class:
    [ChannelsQuery] puts every new item in front of the array (the page
    ends up reversed, ahead of all that was there), [IdentitiesQuery] at
    its end. So with a NEW channel at index 0 and one saved channel
    coming from the cache, the saved channel lands at index 0, ahead of
    the NEW one, where [_getInsertIndex] answers 1 and the add handler
    puts the same channel at index 1. *)
Theorem localCache_merge_ignores_insert_index :
  (forall (cached : list Channel) (s : State),
      let t := dataType (this s) in
      let new := notYetPresent (items s) cached in
      items (stateAfter (ChannelsQuery.loadChannelsCallback cached) s)
      = rev (map (_getData t) new) ++ items s /\
      items (stateAfter (IdentitiesQuery.loadIdentitiesCallback cached) s)
      = items s ++ map (_getData t) new) /\
  (let s := sampleState InstanceDataType [Instance (newChannel "n" 9)] in
   let y := savedChannel "y" 1 in
   let s' :=
     stateAfter
       (bind (ChannelsQuery._fetchData 25)
          (fun _ => ChannelsQuery.loadChannelsCallback [y])) s in
   _getInsertIndex ChannelsQuery._getSortField y (items s) = 1 /\
   items s' = [Instance y; Instance (newChannel "n" 9)] /\
   items (stateAfter
            (ChannelsQuery._handleAddEvent ChannelsQuery._getSortField [y]) s)
   = [Instance (newChannel "n" 9); Instance y]).
Proof.
  split.
  - intros cached s t new. subst t new.
    unfold ChannelsQuery.loadChannelsCallback,
      IdentitiesQuery.loadIdentitiesCallback.
    destruct cached as [| c rest]; [split; [reflexivity |] |].
    + simpl. rewrite app_nil_r. reflexivity.
    + cbn [length Nat.eqb negb]. split.
      * apply (appendResults_items ChannelsQuery._appendResultsSplice
                 (fun page arr => rev page ++ arr)).
        intros page s0. apply forEach_unshift.
      * apply (appendResults_items IdentitiesQuery._appendResultsSplice
                 (fun page arr => arr ++ page)).
        intros page s0. apply forEach_push.
  - vm_compute. repeat split.
Qed.

(** ** Which array holds the result set after an event *)







